(** * Serverless handlers: capacity adjustment, unsupported-media relay,
      SaferNet proxy and transfer control

    A shallow embedding of the four TypeScript sources:
      - [functions/adjustChatCapacity.ts]
      - [functions/saveContactToSaferNet.ts]
      - [functions/helpers/sendErrorMessageForUnsupportedMedia.private.ts]
      - the transfer helper exporting [hasTaskControl]

    Every handler is a short sequence of awaited calls to remote services.
    An [async] function is embedded as a computation in a state-and-error
    monad [M]: the state is the remote platform, the chronological log of
    the calls issued to it, and the responses handed to the serverless
    callback; the error part is a JavaScript [throw] (a rejected promise).

    Numbers: capacities and percentages are integral on the wire and
    [parseInt] yields an integer-valued double, NaN or an infinity.  An
    integer-valued double is carried by the [Z] it denotes, and [+ 1] and
    [- 1] round as double arithmetic does (module [Js]). *)

From Stdlib Require Import ZArith String List Bool Lia.
Import ListNotations.

Set Warnings "-register-all".

Local Open Scope string_scope.
Local Open Scope Z_scope.

(** ** JavaScript values *)

Module Js.

(** The values that [JSON.parse] and the remote services hand back. *)
Inductive value : Type :=
| undefined
| null
| boolean (b : bool)
| number (n : Z)
| str (s : string)
| object (fields : list (string * value))
| array (items : list value).

(** What a [throw] carries. *)
Inductive thrown : Type :=
| Error (message : value)          (* [new Error(message)] *)
| TypeError (property : string)    (* reading a property of null/undefined *)
| Failure (reason : string).       (* raised by a library or a remote call *)

(** ToBoolean. *)
Definition truthy (v : value) : bool :=
  match v with
  | undefined | null => false
  | boolean b => b
  | number n => negb (n =? 0)
  | str s => negb (s =? EmptyString)%string
  | object _ | array _ => true
  end.

Definition truthy_string (s : string) : bool := negb (s =? EmptyString)%string.

(** An optional field of string type: absent is [undefined]. *)
Definition truthy_opt_string (o : option string) : bool :=
  match o with
  | Some s => truthy_string s
  | None => false
  end.

Fixpoint lookup (key : string) (fields : list (string * value)) : value :=
  match fields with
  | [] => undefined
  | (k, v) :: rest => if (k =? key)%string then v else lookup key rest
  end.

(** [v.key] for the data keys this program reads (none of them is a
    built-in property of a primitive or of an array): a [TypeError] on
    [null] and [undefined], the field of an object, [undefined] elsewhere. *)
Definition get (v : value) (key : string) : thrown + value :=
  match v with
  | undefined | null => inl (TypeError key)
  | object fields => inr (lookup key fields)
  | _ => inr undefined
  end.

(** [a ?? b] *)
Definition nullish (a b : value) : value :=
  match a with
  | undefined | null => b
  | _ => a
  end.

(** [a || b] *)
Definition or (a b : value) : value := if truthy a then a else b.

(** *** Numbers

    A number this program computes with is an integer-valued double, NaN or
    an infinity (the last two only out of [parseInt]).  An integer-valued
    double is carried by the integer it denotes. *)
Inductive double : Type :=
| NaN
| Infinity (negative : bool)
| Num (z : Z).

(** 2^53: up to here, in absolute value, every integer is a double. *)
Definition limit : Z := 9007199254740992.

(** The double nearest to the integer [z]: round to nearest, ties to the
    even mantissa.  Doubles of this size carry 53 bits, so the last place is
    worth [2 ^ (log2 |z| - 52)]. *)
Definition round (z : Z) : Z :=
  let a := Z.abs z in
  if a <? limit then z
  else
    let ulp := 2 ^ (Z.log2 a - 52) in
    let q := a / ulp in
    let r := a mod ulp in
    let half := ulp / 2 in
    let q' := if r <? half then q
              else if half <? r then q + 1
              else if Z.even q then q else q + 1 in
    Z.sgn z * (q' * ulp).

(** [c + 1] and [c - 1] on an integer-valued double *)
Definition succ (c : Z) : Z := round (c + 1).

Definition pred (c : Z) : Z := round (c - 1).

(** [a < b]; false as soon as one side is NaN *)
Definition lt (a b : double) : bool :=
  match a, b with
  | Num x, Num y => x <? y
  | Num _, Infinity negative => negb negative
  | Infinity negative, Num _ => negative
  | Infinity n1, Infinity n2 => n1 && negb n2
  | _, _ => false
  end.

(** [a === b] *)
Definition strict_eq (a b : double) : bool :=
  match a, b with
  | Num x, Num y => x =? y
  | Infinity n1, Infinity n2 => Bool.eqb n1 n2
  | _, _ => false
  end.

(** [!a]: NaN and 0 are falsy *)
Definition falsy (a : double) : bool :=
  match a with
  | NaN => true
  | Num z => z =? 0
  | Infinity _ => false
  end.

End Js.

(** ** Data of the remote services *)

(** [WorkerChannelInstance] *)
Record Channel : Type := {
  channelSid : string;
  taskChannelUniqueName : string;
  configuredCapacity : Z;
  availableCapacityPercentage : Z
}.

(** [WorkerInstance] *)
Record Worker : Type := {
  workerSid_of : string;
  attributes : string
}.

(** [TaskInstance] *)
Record Task : Type := { sid : string }.

(** Flex [ConfigurationInstance]; its [attributes] is untyped. *)
Record ServiceConfig : Type := { configAttributes : Js.value }.

(** The argument of [messages.create]. *)
Record MessageOptions : Type := {
  body : Js.value;
  author : string;
  xTwilioWebhookEnabled : string;
  messageAttributes : option string
}.

(** A [fetch] response: [json ()] either yields a value or throws. *)
Record FetchResponse : Type := { json : Js.thrown + Js.value }.

(** The request object given to [axios]. *)
Record AxiosRequest : Type := {
  url : string;
  method : string;
  data : Js.value;
  headers : list (string * string)
}.

Record AxiosResponse : Type := { responseData : Js.value }.

(** [{ status, message }] *)
Record StatusMessage : Type := { status : Z; message : string }.

(** What the helpers [error400], [error403], [error500], [success] and
    [send] build; the helper package is kept symbolic. *)
Inductive Response : Type :=
| error400 (field : string)
| error403 (reason : string)
| error500 (err : Js.thrown)
| success (payload : Js.value)
| send (code : Z) (content : StatusMessage).

(** Calls that leave the process, in the order they are issued. *)
Inductive ApiCall : Type :=
| WorkerFetch (workspaceSid workerSid : string)
| WorkerChannelsList (worker : Worker)
| ChannelUpdate (channel : Channel) (capacity : Z)
| TaskFetch (workspaceSid taskSid : string)
| FlexConfigurationFetch
| MessageCreate (conversationSid : string) (options : MessageOptions)
| HttpFetch (address : string)
| AxiosCall (request : AxiosRequest)
| ValidateToken (token accountSid authToken : string)
| TokenCheck (token : option string).

(** ** The platform interface

    The Twilio REST client, [fetch], [axios], the token validator and the
    JavaScript built-ins are collaborators outside the repository.  A remote
    call reads and changes the remote state [Env] and settles to a value or
    to a rejection; a built-in is a function. *)

Class Platform (Env : Type) : Type := {
  worker_fetch : string -> string -> Env -> (Js.thrown + option Worker) * Env;
  workerChannels_list : Worker -> Env -> (Js.thrown + list Channel) * Env;
  channel_update : Channel -> Z -> Env -> (Js.thrown + Channel) * Env;
  task_fetch : string -> string -> Env -> (Js.thrown + Task) * Env;
  flex_configuration_fetch : Env -> (Js.thrown + ServiceConfig) * Env;
  messages_create : string -> MessageOptions -> Env -> (Js.thrown + unit) * Env;
  http_fetch : string -> Env -> (Js.thrown + FetchResponse) * Env;
  axios : AxiosRequest -> Env -> (Js.thrown + AxiosResponse) * Env;
  validateToken : string -> string -> string -> Env -> (Js.thrown + unit) * Env;
  (** the check that the wrapper [functionValidator] of the helper package
      makes on the token of an event: it lets the event through, or gives
      the response with which the wrapper answers in its place *)
  token_check : option string -> Env -> (Response + unit) * Env;
  (** [JSON.parse] *)
  JSON_parse : string -> Js.thrown + Js.value;
  (** [parseInt(v, 10)] *)
  parseInt10 : Js.value -> Js.double;
  (** ToString, as a template literal applies it *)
  toString : Js.value -> string;
  (** [encodeURIComponent]; it throws on a lone surrogate *)
  encodeURIComponent : string -> Js.thrown + string;
  (** [crypto.createHmac('sha256', key).update(text).digest('hex')] *)
  hmac_sha256_hex : string -> string -> string
}.

(** ** The monad of an async function *)

Inductive Outcome (A : Type) : Type :=
| Returned (a : A)
| Threw (e : Js.thrown)
| OutOfFuel.
Arguments Returned {A} a.
Arguments Threw {A} e.
Arguments OutOfFuel {A}.

Record World (Env : Type) : Type := {
  remote : Env;
  calls : list ApiCall;
  resolved : list Response
}.
Arguments remote {Env} w.
Arguments calls {Env} w.
Arguments resolved {Env} w.

Definition M (Env A : Type) : Type := World Env -> Outcome A * World Env.

Definition ret {Env A} (a : A) : M Env A := fun w => (Returned a, w).

Definition throw {Env A} (e : Js.thrown) : M Env A := fun w => (Threw e, w).

Definition diverge {Env A} : M Env A := fun w => (OutOfFuel, w).

Definition bind {Env A B} (m : M Env A) (k : A -> M Env B) : M Env B :=
  fun w =>
    match m w with
    | (Returned a, w') => k a w'
    | (Threw e, w') => (Threw e, w')
    | (OutOfFuel, w') => (OutOfFuel, w')
    end.

(** [try { m } catch (err) { handle err }] *)
Definition try_catch {Env A} (m : M Env A) (handle : Js.thrown -> M Env A)
  : M Env A :=
  fun w =>
    match m w with
    | (Threw e, w') => handle e w'
    | r => r
    end.

(** A built-in that may throw. *)
Definition lift {Env A} (r : Js.thrown + A) : M Env A :=
  match r with
  | inl e => throw e
  | inr a => ret a
  end.

(** An awaited remote call: logged, then settled by the platform. *)
Definition await {Env A} (c : ApiCall) (f : Env -> (Js.thrown + A) * Env)
  : M Env A :=
  fun w =>
    let (r, env') := f (remote w) in
    let w' := {| remote := env'; calls := calls w ++ [c];
                 resolved := resolved w |} in
    match r with
    | inl e => (Threw e, w')
    | inr a => (Returned a, w')
    end.

(** [resolve(response)]: the serverless callback receives [response]. *)
Definition resolve {Env} (r : Response) : M Env unit :=
  fun w =>
    (Returned tt,
     {| remote := remote w; calls := calls w;
        resolved := resolved w ++ [r] |}).

Declare Scope async_scope.
Delimit Scope async_scope with async.
Notation "x <- m ;; k" := (bind m (fun x => k))
  (at level 61, m at next level, right associativity) : async_scope.
Notation "m ;;; k" := (bind m (fun _ => k))
  (at level 61, right associativity) : async_scope.
Local Open Scope async_scope.

(** A fresh world around a remote state. *)
Definition boot {Env} (env : Env) : World Env :=
  {| remote := env; calls := []; resolved := [] |}.

(** The double quote, for the one message that contains it. *)
Definition dquote : string := String (Ascii.ascii_of_nat 34) EmptyString.

(** ** functions/adjustChatCapacity.ts *)

Module AdjustChatCapacity.

(** [EnvVars] *)
Record Context : Type := { TWILIO_WORKSPACE_SID : string }.

(** [Body]; an absent field is [undefined].  At run time [adjustment] is
    whatever string the request carried.  [Token] is the property of the
    event that the wrapper of the handler reads; the declared type does not
    list it. *)
Record Body : Type := {
  workerSid : option string;
  adjustment : option string;
  Token : option string
}.

(** [Required<Pick<Body, 'adjustment' | 'workerSid'>>] *)
Record ValidBody : Type := {
  validWorkerSid : string;
  validAdjustment : string
}.

(** What [increaseChatCapacity] returns. *)
Record Increase : Type := {
  result : StatusMessage;
  updatedChannel : Channel
}.

Section Program.
Context {Env : Type} `{Platform Env}.

Definition increaseChatCapacity (channel : Channel) (maxMessageCapacity : Js.double)
  : M Env Increase :=
  if 0 <? availableCapacityPercentage channel then
    ret {| result := {| status := 412;
                        message := "Still have available capacity, no need to increase." |};
           updatedChannel := channel |}
  else if negb (Js.lt (Js.Num (configuredCapacity channel)) maxMessageCapacity) then
    ret {| result := {| status := 412; message := "Reached the max capacity." |};
           updatedChannel := channel |}
  else
    updatedChannel <-
      await (ChannelUpdate channel (Js.succ (configuredCapacity channel)))
            (channel_update channel (Js.succ (configuredCapacity channel))) ;;
    ret {| result := {| status := 200;
                        message := "Successfully increased channel capacity" |};
           updatedChannel := updatedChannel |}.

(** The loop [while (result.status === 200) { ... }] on its two variables;
    one unit of fuel pays for one evaluation of the loop condition. *)
Fixpoint increaseLoop (fuel : nat) (maxMessageCapacity : Js.double)
    (result : StatusMessage) (channel : Channel)
  : M Env (StatusMessage * Channel) :=
  match fuel with
  | O => diverge
  | S fuel' =>
      if status result =? 200 then
        r <- increaseChatCapacity channel maxMessageCapacity ;;
        increaseLoop fuel' maxMessageCapacity (AdjustChatCapacity.result r)
                     (updatedChannel r)
      else ret (result, channel)
  end.

Definition adjustChatCapacity (fuel : nat) (context : Context) (body : ValidBody)
  : M Env StatusMessage :=
  worker <- await (WorkerFetch (TWILIO_WORKSPACE_SID context) (validWorkerSid body))
                  (worker_fetch (TWILIO_WORKSPACE_SID context) (validWorkerSid body)) ;;
  match worker with
  | None => ret {| status := 404; message := "Could not find worker." |}
  | Some worker =>
  attributes <- lift (JSON_parse (attributes worker)) ;;
  rawCapacity <- lift (Js.get attributes "maxMessageCapacity") ;;
  let maxMessageCapacity := parseInt10 rawCapacity in
  if Js.falsy maxMessageCapacity then
    ret {| status := 409;
           message := "Worker " ++ validWorkerSid body ++ " does not have a "
                      ++ dquote ++ "maxMessageCapacity" ++ dquote
                      ++ " attribute, can't adjust capacity." |}
  else
  channels <- await (WorkerChannelsList worker) (workerChannels_list worker) ;;
  match find (fun c => (taskChannelUniqueName c =? "chat")%string) channels with
  | None => ret {| status := 404; message := "Could not find chat channel." |}
  | Some channel =>
  if (validAdjustment body =? "increase")%string then
    r <- increaseChatCapacity channel maxMessageCapacity ;;
    ret (result r)
  else if (validAdjustment body =? "increaseUntilCapacityAvailable")%string then
    looped <- increaseLoop fuel maxMessageCapacity
                           {| status := 200; message := EmptyString |} channel ;;
    let channel := snd looped in
    if Js.strict_eq (Js.Num (configuredCapacity channel)) maxMessageCapacity
       && (availableCapacityPercentage channel =? 0) then
      ret {| status := 412;
             message := "Reached the max capacity with no available capacity." |}
    else
      ret {| status := 200;
             message := "Adjusted chat capacity until there is capacity available" |}
  else if (validAdjustment body =? "decrease")%string then
    (if 1 <=? Js.pred (configuredCapacity channel) then
       await (ChannelUpdate channel (Js.pred (configuredCapacity channel)))
             (channel_update channel (Js.pred (configuredCapacity channel))) ;;;
       ret tt
     else ret tt) ;;;
    ret {| status := 200; message := "Successfully decreased channel capacity" |}
  else if (validAdjustment body =? "setTo1")%string then
    if negb (configuredCapacity channel =? 1) then
      await (ChannelUpdate channel (Js.pred (configuredCapacity channel)))
            (channel_update channel (Js.pred (configuredCapacity channel))) ;;;
      ret {| status := 200; message := "Successfully reset channel capacity to 1" |}
    else
      ret {| status := 200;
             message := "Channel capacity already 1, no adjustment made." |}
  else
    ret {| status := 400; message := "Invalid adjustment argument" |}
  end
  end.

(** The async function given to [TokenValidator]. *)
Definition validated (fuel : nat) (context : Context) (event : Body) : M Env unit :=
  try_catch
    (match workerSid event with
     | None => resolve (error400 "workerSid")
     | Some workerSid =>
     match adjustment event with
     | None => resolve (error400 "adjustment")
     | Some adjustment =>
       let validBody := {| validWorkerSid := workerSid;
                           validAdjustment := adjustment |} in
       r <- adjustChatCapacity fuel context validBody ;;
       resolve (send (status r) {| status := status r; message := message r |})
     end
     end)
    (fun err => resolve (error500 err)).

(** Modelled from the spec: [TokenValidator] is [functionValidator] of the
    helper package, which is not among the sources; the spec keeps token
    validation opaque.  The wrapper checks the token of the event first
    and, when the check refuses it, answers the callback itself and never
    runs the wrapped function; the check is the parameter [token_check]. *)
Definition TokenValidator (handlerFn : Context -> Body -> M Env unit)
    (context : Context) (event : Body) : M Env unit :=
  fun w =>
    let (verdict, env') := token_check (Token event) (remote w) in
    let w' := {| remote := env'; calls := calls w ++ [TokenCheck (Token event)];
                 resolved := resolved w |} in
    match verdict with
    | inl refusal => resolve refusal w'
    | inr _ => handlerFn context event w'
    end.

(** [export const handler = TokenValidator(async (context, event, callback) => ...)] *)
Definition handler (fuel : nat) : Context -> Body -> M Env unit :=
  TokenValidator (validated fuel).

End Program.

End AdjustChatCapacity.

(** ** The transfer helper *)

Module TransferHelpers.

Inductive TransferMode : Type := COLD | WARM.

Inductive TransferStatus : Type := transferring | accepted | rejected.

Inductive TransferTargetType : Type := worker | queue.

Record TransferMeta : Type := {
  mode : TransferMode;
  transferStatus : TransferStatus;
  sidWithTaskControl : string
}.

Record ChatTransferTaskAttributes : Type := {
  transferMeta : option TransferMeta;
  transferTargetType : option TransferTargetType
}.

(** [taskAttributes] is guarded against a missing value by the code, hence
    the [option]; an object is always truthy. *)
Definition hasTransferStarted (taskAttributes : option ChatTransferTaskAttributes)
  : bool :=
  match taskAttributes with
  | None => false
  | Some a => match transferMeta a with Some _ => true | None => false end
  end.

Section Program.
Context {Env : Type} `{Platform Env}.

Definition hasTaskControl (workspaceSid taskSid : string)
    (taskAttributes : option ChatTransferTaskAttributes) : M Env bool :=
  if negb (hasTransferStarted taskAttributes) then ret true
  else
    task <- await (TaskFetch workspaceSid taskSid) (task_fetch workspaceSid taskSid) ;;
    match taskAttributes with
    | None => throw (Js.TypeError "transferMeta")
    | Some a =>
        ret (match transferMeta a with
             | Some meta => (sidWithTaskControl meta =? sid task)%string
             | None => false (* [undefined === task.sid] *)
             end)
    end.

End Program.

End TransferHelpers.

(** ** functions/saveContactToSaferNet.ts *)

Module SaveContactToSaferNet.

Record Body : Type := {
  payload : string;
  Token : option string;
  ApiKey : option string
}.

(** [EnvVars] *)
Record Context : Type := {
  ACCOUNT_SID : string;
  AUTH_TOKEN : string;
  SAVE_PENDING_CONTACTS_STATIC_KEY : string;
  SAFERNET_ENDPOINT : string;
  SAFERNET_TOKEN : string
}.

Section Program.
Context {Env : Type} `{Platform Env}.

Definition isValidRequest (context : Context) (event : Body) : M Env bool :=
  if Js.truthy_opt_string (Token event) then
    let token := match Token event with Some t => t | None => EmptyString end in
    try_catch
      (await (ValidateToken token (ACCOUNT_SID context) (AUTH_TOKEN context))
             (validateToken token (ACCOUNT_SID context) (AUTH_TOKEN context)) ;;;
       ret true)
      (fun _ => ret false)
  else if Js.truthy_opt_string (ApiKey event) then
    ret (match ApiKey event with
         | Some key => (key =? SAVE_PENDING_CONTACTS_STATIC_KEY context)%string
         | None => false
         end)
  else ret false.

(** The request built inside the [try] block. *)
Definition saferNetRequest (context : Context) (signedPayload : string)
    (parsed : Js.value) : AxiosRequest :=
  {| url := SAFERNET_ENDPOINT context;
     method := "POST";
     data := parsed;
     headers := [ ("Content-Type", "application/json");
                  ("X-Signature", "sha256=" ++ signedPayload) ] |}.

(** The [try] block of the handler. *)
Definition forward (context : Context) (event : Body) : M Env unit :=
  let payload := payload event in
  encoded <- lift (encodeURIComponent payload) ;;
  let signedPayload := hmac_sha256_hex (SAFERNET_TOKEN context) encoded in
  parsed <- lift (JSON_parse payload) ;;
  saferNetResponse <-
    await (AxiosCall (saferNetRequest context signedPayload parsed))
          (axios (saferNetRequest context signedPayload parsed)) ;;
  ok <- lift (Js.get (responseData saferNetResponse) "success") ;;
  if Js.truthy ok then
    link <- lift (Js.get (responseData saferNetResponse) "post_survey_link") ;;
    resolve (success link)
  else
    errorMessage <- lift (Js.get (responseData saferNetResponse) "error_message") ;;
    resolve (error500 (Js.Error errorMessage)).

Definition handler (context : Context) (event : Body) : M Env unit :=
  if negb (Js.truthy_string (SAFERNET_ENDPOINT context)) then
    throw (Js.Error (Js.str "SAFERNET_ENDPOINT env var not provided."))
  else if negb (Js.truthy_string (SAFERNET_TOKEN context)) then
    throw (Js.Error (Js.str "SAFERNET_TOKEN env var not provided."))
  else if negb (Js.truthy_string (SAVE_PENDING_CONTACTS_STATIC_KEY context)) then
    throw (Js.Error (Js.str "SAVE_PENDING_CONTACTS_STATIC_KEY env var not provided."))
  else
    isValid <- isValidRequest context event ;;
    if negb isValid then
      resolve (error403 "No AccessToken or ApiKey was found")
    else
      try_catch (forward context event)
                (fun err => resolve (error500 err)).

End Program.

End SaveContactToSaferNet.

(** ** functions/helpers/sendErrorMessageForUnsupportedMedia.private.ts *)

Module UnsupportedMedia.

(** [OnMessageAddedEvent]; [Media], when present, is an object and so is
    truthy whatever it holds. *)
Record Event : Type := {
  Body : option string;
  ConversationSid : string;
  Media : option (list (string * Js.value))
}.

Record Context : Type := { DOMAIN_NAME : string }.

Definition FALLBACK_ERROR_MESSAGE : string := "Unsupported message type.".

Definition ERROR_MESSAGE_TRANSLATION_KEY : string := "UnsupportedMediaErrorMsg".

Definition truthy_media (m : option (list (string * Js.value))) : bool :=
  match m with
  | Some _ => true
  | None => false
  end.

Section Program.
Context {Env : Type} `{Platform Env}.

Definition sendConversationMessage (conversationSid author : string)
    (messageText : Js.value) (messageAttributes : option string) : M Env unit :=
  await (MessageCreate conversationSid
           {| body := messageText;
              author := author;
              xTwilioWebhookEnabled := "true";
              messageAttributes :=
                if Js.truthy_opt_string messageAttributes
                then messageAttributes else None |})
        (messages_create conversationSid
           {| body := messageText;
              author := author;
              xTwilioWebhookEnabled := "true";
              messageAttributes :=
                if Js.truthy_opt_string messageAttributes
                then messageAttributes else None |}).

(** The [try] block around the translation download. *)
Definition translate (context : Context) (helplineLanguage messageText : Js.value)
  : M Env Js.value :=
  response <-
    await (HttpFetch ("https://" ++ DOMAIN_NAME context ++ "/translations/"
                      ++ toString helplineLanguage ++ "/messages.json"))
          (http_fetch ("https://" ++ DOMAIN_NAME context ++ "/translations/"
                       ++ toString helplineLanguage ++ "/messages.json")) ;;
  translation <- lift (json response) ;;
  translatedMessage <- lift (Js.get translation ERROR_MESSAGE_TRANSLATION_KEY) ;;
  ret (Js.or translatedMessage messageText).

Definition sendErrorMessageForUnsupportedMedia (context : Context) (event : Event)
  : M Env unit :=
  if negb (Js.truthy_opt_string (Body event)) && negb (truthy_media (Media event))
  then
    let messageText := Js.str FALLBACK_ERROR_MESSAGE in
    serviceConfig <- await FlexConfigurationFetch flex_configuration_fetch ;;
    language <- lift (Js.get (configAttributes serviceConfig) "helplineLanguage") ;;
    let helplineLanguage := Js.nullish language (Js.str "en-US") in
    messageText <-
      (if Js.truthy helplineLanguage then
         try_catch (translate context helplineLanguage messageText)
                   (fun _ => ret messageText)
       else ret messageText) ;;
    sendConversationMessage (ConversationSid event) "Bot" messageText None
  else ret tt.

End Program.

End UnsupportedMedia.

(** ** Vocabulary of the statements *)

(** The calls a computation adds to the log of [w]. *)
Definition issues {Env A} (m : M Env A) (w : World Env) (new : list ApiCall) : Prop :=
  calls (snd (m w)) = (calls w ++ new)%list.

(** The responses a computation hands to the callback from [w]. *)
Definition resolves {Env A} (m : M Env A) (w : World Env) (rs : list Response) : Prop :=
  resolved (snd (m w)) = (resolved w ++ rs)%list.

(** [w] after the remote state moved to [env] and [cs] were logged. *)
Definition advance {Env} (w : World Env) (env : Env) (cs : list ApiCall) : World Env :=
  {| remote := env; calls := calls w ++ cs; resolved := resolved w |}.

(** The configured capacity once the updates in a log have been applied to a
    channel that started at [c]: an update to [n] leaves it at [n]. *)
Fixpoint capacityAfter (c : Z) (log : list ApiCall) : Z :=
  match log with
  | [] => c
  | ChannelUpdate _ n :: rest => capacityAfter n rest
  | _ :: rest => capacityAfter c rest
  end.

(** The precondition on [channel.update({capacity: n})]: a channel it
    returns has configured capacity [n]. *)
Definition update_sets_capacity {Env} `{Platform Env} : Prop :=
  forall channel n env updated env',
    channel_update channel n env = (inr updated, env') ->
    configuredCapacity updated = n.

Section Located.
Context {Env : Type} `{Platform Env}.

(** [adjustChatCapacity] got past its lookups from world [w]: the worker
    exists, its attributes hold a usable [maxMessageCapacity], and the
    worker has the chat [channel]; [w2] is the world at that point. *)
Definition located (context : AdjustChatCapacity.Context) (workerSid : string)
    (w : World Env) (maxMessageCapacity : Z) (channel : Channel) (w2 : World Env)
  : Prop :=
  exists worker env1 attrs raw channels env2,
    worker_fetch (AdjustChatCapacity.TWILIO_WORKSPACE_SID context) workerSid
                 (remote w) = (inr (Some worker), env1)
    /\ JSON_parse (attributes worker) = inr attrs
    /\ Js.get attrs "maxMessageCapacity" = inr raw
    /\ parseInt10 raw = Js.Num maxMessageCapacity
    /\ maxMessageCapacity <> 0
    /\ workerChannels_list worker env1 = (inr channels, env2)
    /\ find (fun c => (taskChannelUniqueName c =? "chat")%string) channels
       = Some channel
    /\ w2 = advance w env2
              [ WorkerFetch (AdjustChatCapacity.TWILIO_WORKSPACE_SID context) workerSid;
                WorkerChannelsList worker ].

(** The same with any truthy result of [parseInt], infinities included. *)
Definition located_at (context : AdjustChatCapacity.Context) (workerSid : string)
    (w : World Env) (maxMessageCapacity : Js.double) (channel : Channel)
    (w2 : World Env) : Prop :=
  exists worker env1 attrs raw channels env2,
    worker_fetch (AdjustChatCapacity.TWILIO_WORKSPACE_SID context) workerSid
                 (remote w) = (inr (Some worker), env1)
    /\ JSON_parse (attributes worker) = inr attrs
    /\ Js.get attrs "maxMessageCapacity" = inr raw
    /\ parseInt10 raw = maxMessageCapacity
    /\ Js.falsy maxMessageCapacity = false
    /\ workerChannels_list worker env1 = (inr channels, env2)
    /\ find (fun c => (taskChannelUniqueName c =? "chat")%string) channels
       = Some channel
    /\ w2 = advance w env2
              [ WorkerFetch (AdjustChatCapacity.TWILIO_WORKSPACE_SID context) workerSid;
                WorkerChannelsList worker ].

End Located.

(** A ceiling under which counting up by one is exact: not a number, minus
    infinity, or a number of at most 2^53. *)
Definition bounded (max : Js.double) : Prop :=
  match max with
  | Js.NaN => True
  | Js.Infinity negative => negative = true
  | Js.Num z => z <= Js.limit
  end.

(** The number of steps of one from [c] up to the ceiling. *)
Definition room (max : Js.double) (c : Z) : nat :=
  match max with
  | Js.Num z => Z.to_nat (z - c)
  | _ => 0%nat
  end.

Section Translation.
Context {Env : Type} `{Platform Env}.

(** The address of the translation file for a language. *)
Definition translationAddress (context : UnsupportedMedia.Context)
    (helplineLanguage : Js.value) : string :=
  "https://" ++ UnsupportedMedia.DOMAIN_NAME context ++ "/translations/"
  ++ toString helplineLanguage ++ "/messages.json".

(** The translation download, started from remote state [env], succeeds and
    yields the truthy value [text] under the error-message key. *)
Definition translationYields (context : UnsupportedMedia.Context)
    (helplineLanguage : Js.value) (env : Env) (text : Js.value) : Prop :=
  Js.truthy helplineLanguage = true
  /\ exists response env' translation,
       http_fetch (translationAddress context helplineLanguage) env
       = (inr response, env')
       /\ json response = inr translation
       /\ Js.get translation UnsupportedMedia.ERROR_MESSAGE_TRANSLATION_KEY = inr text
       /\ Js.truthy text = true.

End Translation.

(** ** A small concrete platform

    One worker with one chat channel, whose state is the remote state; an
    update stores the requested capacity and the channel stays fully used. *)

Module Demo.

Definition attributes3 : string :=
  "{" ++ dquote ++ "maxMessageCapacity" ++ dquote ++ ":3}".

Definition parse (s : string) : Js.thrown + Js.value :=
  if (s =? attributes3)%string then
    inr (Js.object [("maxMessageCapacity", Js.number 3)])
  else if (s =? "{}")%string then inr (Js.object [])
  else if (s =? "null")%string then inr Js.null
  else inl (Js.Failure "SyntaxError").

Definition parseInt (v : Js.value) : Js.double :=
  match v with
  | Js.number n => Js.Num n
  | _ => Js.NaN
  end.

Definition show (v : Js.value) : string :=
  match v with
  | Js.str s => s
  | _ => "[object Object]"
  end.

Definition setCapacity (channel : Channel) (n : Z) : Channel :=
  {| channelSid := channelSid channel;
     taskChannelUniqueName := taskChannelUniqueName channel;
     configuredCapacity := n;
     availableCapacityPercentage := 0 |}.

Definition translations : Js.value :=
  Js.object [("UnsupportedMediaErrorMsg", Js.str "Tipo de mensagem incompativel.")].

Definition surveyReply : Js.value :=
  Js.object [("success", Js.boolean true);
             ("post_survey_link", Js.str "https://survey.example/1")].

#[local] Instance platform : Platform Channel := {
  worker_fetch _ workerSid env :=
    (inr (Some {| workerSid_of := workerSid; attributes := attributes3 |}), env);
  workerChannels_list _ env := (inr [env], env);
  channel_update _ n env := (inr (setCapacity env n), setCapacity env n);
  task_fetch _ taskSid env := (inr {| sid := taskSid |}, env);
  flex_configuration_fetch env :=
    (inr {| configAttributes := Js.object [("helplineLanguage", Js.str "pt-BR")] |}, env);
  messages_create _ _ env := (inr tt, env);
  http_fetch _ env := (inr {| json := inr translations |}, env);
  axios _ env := (inr {| responseData := surveyReply |}, env);
  validateToken _ _ _ env := (inl (Js.Failure "invalid token"), env);
  token_check _ env := (inr tt, env);
  JSON_parse := parse;
  parseInt10 := parseInt;
  toString := show;
  encodeURIComponent s := inr s;
  hmac_sha256_hex key text := key ++ ":" ++ text
}.

Definition chat (capacity available : Z) : Channel :=
  {| channelSid := "WC1"; taskChannelUniqueName := "chat";
     configuredCapacity := capacity; availableCapacityPercentage := available |}.

Definition context : AdjustChatCapacity.Context :=
  {| AdjustChatCapacity.TWILIO_WORKSPACE_SID := "WS1" |}.

(** The world once worker "WK1" and its chat channel have been looked up. *)
Definition found (channel : Channel) : World Channel :=
  advance (boot channel) channel
    [ WorkerFetch "WS1" "WK1";
      WorkerChannelsList {| workerSid_of := "WK1"; attributes := attributes3 |} ].

Definition saferNet : SaveContactToSaferNet.Context :=
  {| SaveContactToSaferNet.ACCOUNT_SID := "AC1";
     SaveContactToSaferNet.AUTH_TOKEN := "auth";
     SaveContactToSaferNet.SAVE_PENDING_CONTACTS_STATIC_KEY := "static-key";
     SaveContactToSaferNet.SAFERNET_ENDPOINT := "https://safernet.example/post";
     SaveContactToSaferNet.SAFERNET_TOKEN := "secret" |}.

Definition contact (payload : string) : SaveContactToSaferNet.Body :=
  {| SaveContactToSaferNet.payload := payload;
     SaveContactToSaferNet.Token := None;
     SaveContactToSaferNet.ApiKey := Some "static-key" |}.

Definition emptyMessage : UnsupportedMedia.Event :=
  {| UnsupportedMedia.Body := None;
     UnsupportedMedia.ConversationSid := "CH1";
     UnsupportedMedia.Media := None |}.

Definition textMessage : UnsupportedMedia.Event :=
  {| UnsupportedMedia.Body := Some "hello";
     UnsupportedMedia.ConversationSid := "CH1";
     UnsupportedMedia.Media := None |}.

Definition control (owner : string) : TransferHelpers.TransferMeta :=
  {| TransferHelpers.mode := TransferHelpers.COLD;
     TransferHelpers.transferStatus := TransferHelpers.accepted;
     TransferHelpers.sidWithTaskControl := owner |}.

Definition transferred (owner : string) : TransferHelpers.ChatTransferTaskAttributes :=
  {| TransferHelpers.transferMeta := Some (control owner);
     TransferHelpers.transferTargetType := None |}.

Definition domain : UnsupportedMedia.Context :=
  {| UnsupportedMedia.DOMAIN_NAME := "helpline.example" |}.

End Demo.

(** ** Vocabulary of the further properties *)

(** A computation that only talks to the platform: it leaves the callback
    alone, and the log only grows. *)
Definition framed {Env A} (m : M Env A) : Prop :=
  forall w, exists env' new, snd (m w) = advance w env' new.

(** A platform on which every update succeeds, stores the requested
    capacity, and returns a channel that is still fully used. *)
Definition always_busy {Env} `{Platform Env} : Prop :=
  forall channel n env,
    exists updated env',
      channel_update channel n env = (inr updated, env')
      /\ configuredCapacity updated = n
      /\ availableCapacityPercentage updated = 0.

(** An update the increase path may ask for: on a channel without available
    capacity, for one more than that channel has, within the ceiling. *)
Definition cautious (max : Js.double) (call : ApiCall) : Prop :=
  match call with
  | ChannelUpdate c n =>
      availableCapacityPercentage c <= 0
      /\ n = Js.succ (configuredCapacity c)
      /\ Js.lt (Js.Num (configuredCapacity c)) max = true
  | _ => False
  end.

(** ** A scripted platform

    The remote state is the script: what each lookup answers.  Updates and
    messages succeed; downloads and posts are refused. *)

Module Scripted.

Record Script : Type := {
  workerAnswer : Js.thrown + option Worker;
  channelsAnswer : Js.thrown + list Channel;
  taskAnswer : Js.thrown + Task;
  configAnswer : Js.thrown + ServiceConfig;
  tokenAnswer : Js.thrown + unit
}.

#[local] Instance platform : Platform Script := {
  worker_fetch _ _ s := (workerAnswer s, s);
  workerChannels_list _ s := (channelsAnswer s, s);
  channel_update channel n s := (inr (Demo.setCapacity channel n), s);
  task_fetch _ _ s := (taskAnswer s, s);
  flex_configuration_fetch s := (configAnswer s, s);
  messages_create _ _ s := (inr tt, s);
  http_fetch _ s := (inl (Js.Failure "offline"), s);
  axios _ s := (inl (Js.Failure "offline"), s);
  validateToken _ _ _ s := (tokenAnswer s, s);
  token_check _ s :=
    (match tokenAnswer s with
     | inl _ => inl (error403 "Unauthorized")
     | inr _ => inr tt
     end, s);
  JSON_parse := Demo.parse;
  parseInt10 := Demo.parseInt;
  toString := Demo.show;
  encodeURIComponent s := inr s;
  hmac_sha256_hex key text := key ++ ":" ++ text
}.

Definition down : Js.thrown := Js.Failure "service unavailable".

(** A worker whose attributes are the given text, with the given channels,
    and a configuration with the given attributes. *)
Definition script (workerAttributes : string) (channels : list Channel)
    (flexAttributes : Js.value) : Script :=
  {| workerAnswer := inr (Some {| workerSid_of := "WK1";
                                  attributes := workerAttributes |});
     channelsAnswer := inr channels;
     taskAnswer := inl down;
     configAnswer := inr {| configAttributes := flexAttributes |};
     tokenAnswer := inr tt |}.

(** Nothing answers. *)
Definition outage : Script :=
  {| workerAnswer := inr None;
     channelsAnswer := inl down;
     taskAnswer := inl down;
     configAnswer := inl down;
     tokenAnswer := inl down |}.

Definition voice : Channel :=
  {| channelSid := "WC2"; taskChannelUniqueName := "voice";
     configuredCapacity := 1; availableCapacityPercentage := 100 |}.

Definition request (adjustment : string) : AdjustChatCapacity.ValidBody :=
  {| AdjustChatCapacity.validWorkerSid := "WK1";
     AdjustChatCapacity.validAdjustment := adjustment |}.

End Scripted.

(** ** Reasoning about the monad *)

Lemma bind_returned {Env A B} (m : M Env A) (k : A -> M Env B) w a w' :
  m w = (Returned a, w') -> bind m k w = k a w'.
Proof. intros E. unfold bind. now rewrite E. Qed.

Lemma bind_ret {Env A B} (a : A) (k : A -> M Env B) w :
  bind (ret a) k w = k a w.
Proof. reflexivity. Qed.

Lemma bind_throw {Env A B} (e : Js.thrown) (k : A -> M Env B) w :
  bind (throw e) k w = (Threw e, w).
Proof. reflexivity. Qed.

Lemma bind_threw {Env A B} (m : M Env A) (k : A -> M Env B) w e w' :
  m w = (Threw e, w') -> bind m k w = (Threw e, w').
Proof. intros E. unfold bind. now rewrite E. Qed.

Lemma await_settled {Env A} (c : ApiCall) (f : Env -> (Js.thrown + A) * Env) w r env' :
  f (remote w) = (r, env') ->
  await c f w =
    (match r with inl e => Threw e | inr a => Returned a end, advance w env' [c]).
Proof.
  intros E. unfold await, advance. rewrite E. now destruct r.
Qed.

Lemma advance_advance {Env} (w : World Env) e1 c1 e2 c2 :
  advance (advance w e1 c1) e2 c2 = advance w e2 (c1 ++ c2).
Proof. unfold advance. simpl. now rewrite app_assoc. Qed.

Lemma app_same_nil {A} (l new : list A) : l = (l ++ new)%list -> new = [].
Proof.
  intros E. rewrite <- (app_nil_r l) in E at 1. apply app_inv_head in E. auto.
Qed.

Lemma bind_await {Env A B} (c : ApiCall) (f : Env -> (Js.thrown + A) * Env)
    (k : A -> M Env B) w r env' :
  f (remote w) = (r, env') ->
  bind (await c f) k w =
    match r with
    | inl e => (Threw e, advance w env' [c])
    | inr a => k a (advance w env' [c])
    end.
Proof.
  intros E. unfold bind. rewrite (await_settled _ _ _ _ _ E). now destruct r.
Qed.

(** ** Reasoning about numbers *)

Lemma round_exact z : - Js.limit <= z <= Js.limit -> Js.round z = z.
Proof.
  intros Hz. unfold Js.round.
  destruct (Z.ltb_spec (Z.abs z) Js.limit) as [_|Hbig]; [reflexivity|].
  assert (Hedge : z = Js.limit \/ z = - Js.limit) by lia.
  destruct Hedge as [-> | ->]; vm_compute; reflexivity.
Qed.

Lemma succ_exact c : - Js.limit <= c < Js.limit -> Js.succ c = c + 1.
Proof. intros Hc. unfold Js.succ. apply round_exact. lia. Qed.

Lemma pred_exact c : - Js.limit < c <= Js.limit -> Js.pred c = c - 1.
Proof. intros Hc. unfold Js.pred. apply round_exact. lia. Qed.

(** Rounding keeps a number on its side of 1. *)
Lemma round_ge_1 z : 1 <= Js.round z <-> 1 <= z.
Proof.
  unfold Js.round.
  destruct (Z.ltb_spec (Z.abs z) Js.limit) as [_|Hbig]; [reflexivity|].
  assert (Hlimit : Js.limit = 2 ^ 53) by reflexivity.
  assert (Ha : 0 < Z.abs z) by (rewrite Hlimit in Hbig; lia).
  pose proof (Z.log2_spec (Z.abs z) Ha) as [Hlow Hhigh].
  assert (Hlog : 53 <= Z.log2 (Z.abs z)).
  { apply Z.log2_le_pow2; [assumption|]. rewrite <- Hlimit. assumption. }
  set (e := Z.log2 (Z.abs z) - 52) in *.
  assert (Hulp : 0 < 2 ^ e) by (apply Z.pow_pos_nonneg; lia).
  assert (Hq : 1 <= Z.abs z / 2 ^ e).
  { apply Z.div_le_lower_bound; [assumption|].
    rewrite Z.mul_1_r. etransitivity; [|exact Hlow].
    apply Z.pow_le_mono_r; lia. }
  set (q := Z.abs z / 2 ^ e) in *.
  set (q' := if Z.abs z mod 2 ^ e <? 2 ^ e / 2 then q
             else if 2 ^ e / 2 <? Z.abs z mod 2 ^ e then q + 1
             else if Z.even q then q else q + 1).
  assert (Hq' : 1 <= q') by (subst q'; repeat destruct (_ <? _); try destruct (Z.even q); lia).
  assert (Hprod : 1 <= q' * 2 ^ e) by nia.
  destruct (Z.sgn_spec z) as [[Hz ->] | [[Hz ->] | [Hz ->]]]; lia.
Qed.

Lemma pred_ge_1 c : 1 <= Js.pred c <-> 2 <= c.
Proof. unfold Js.pred. rewrite round_ge_1. lia. Qed.

Lemma succ_limit : Js.succ Js.limit = Js.limit.
Proof. vm_compute. reflexivity. Qed.

Section Increase.
Context {Env : Type} `{Platform Env}.
Import AdjustChatCapacity.

Lemma increase_available channel max (w : World Env) :
  0 < availableCapacityPercentage channel ->
  increaseChatCapacity channel max w =
    (Returned {| result := {| status := 412;
                  message := "Still have available capacity, no need to increase." |};
                 updatedChannel := channel |}, w).
Proof.
  intros Hav. unfold increaseChatCapacity.
  destruct (Z.ltb_spec 0 (availableCapacityPercentage channel)); [reflexivity | lia].
Qed.

Lemma increase_at_max channel max (w : World Env) :
  availableCapacityPercentage channel <= 0 ->
  Js.lt (Js.Num (configuredCapacity channel)) max = false ->
  increaseChatCapacity channel max w =
    (Returned {| result := {| status := 412; message := "Reached the max capacity." |};
                 updatedChannel := channel |}, w).
Proof.
  intros Hav Hmax. unfold increaseChatCapacity.
  destruct (Z.ltb_spec 0 (availableCapacityPercentage channel)); [lia |].
  now rewrite Hmax.
Qed.

Lemma increase_updates channel max (w : World Env) r env' :
  availableCapacityPercentage channel <= 0 ->
  Js.lt (Js.Num (configuredCapacity channel)) max = true ->
  channel_update channel (Js.succ (configuredCapacity channel)) (remote w) = (r, env') ->
  increaseChatCapacity channel max w =
    (match r with
     | inl e => Threw e
     | inr updated =>
         Returned {| result := {| status := 200;
                        message := "Successfully increased channel capacity" |};
                     updatedChannel := updated |}
     end,
     advance w env' [ChannelUpdate channel (Js.succ (configuredCapacity channel))]).
Proof.
  intros Hav Hmax Hup. unfold increaseChatCapacity.
  destruct (Z.ltb_spec 0 (availableCapacityPercentage channel)); [lia |].
  rewrite Hmax. cbn [negb]. unfold bind. rewrite (await_settled _ _ _ _ _ Hup).
  now destruct r.
Qed.

Lemma located_finite context workerSid (w : World Env) max channel w2 :
  located context workerSid w max channel w2 ->
  located_at context workerSid w (Js.Num max) channel w2.
Proof.
  intros (worker & env1 & attrs & raw & channels & env2
          & Hw & Hp & Hg & Hi & Hnz & Hl & Hf & Hw2).
  exists worker, env1, attrs, raw, channels, env2. repeat split; try assumption.
  cbn. now apply Z.eqb_neq.
Qed.

Lemma adjust_located_at fuel context workerSid adjustment (w : World Env)
    max channel w2 :
  located_at context workerSid w max channel w2 ->
  adjustChatCapacity fuel context
    {| validWorkerSid := workerSid; validAdjustment := adjustment |} w
  = (if (adjustment =? "increase")%string then
      r <- increaseChatCapacity channel max ;;
      ret (result r)
    else if (adjustment =? "increaseUntilCapacityAvailable")%string then
      looped <- increaseLoop fuel max {| status := 200; message := EmptyString |} channel ;;
      if Js.strict_eq (Js.Num (configuredCapacity (snd looped))) max
         && (availableCapacityPercentage (snd looped) =? 0) then
        ret {| status := 412;
               message := "Reached the max capacity with no available capacity." |}
      else
        ret {| status := 200;
               message := "Adjusted chat capacity until there is capacity available" |}
    else if (adjustment =? "decrease")%string then
      (if 1 <=? Js.pred (configuredCapacity channel) then
         await (ChannelUpdate channel (Js.pred (configuredCapacity channel)))
               (channel_update channel (Js.pred (configuredCapacity channel))) ;;;
         ret tt
       else ret tt) ;;;
      ret {| status := 200; message := "Successfully decreased channel capacity" |}
    else if (adjustment =? "setTo1")%string then
      if negb (configuredCapacity channel =? 1) then
        await (ChannelUpdate channel (Js.pred (configuredCapacity channel)))
              (channel_update channel (Js.pred (configuredCapacity channel))) ;;;
        ret {| status := 200; message := "Successfully reset channel capacity to 1" |}
      else
        ret {| status := 200;
               message := "Channel capacity already 1, no adjustment made." |}
    else
      ret {| status := 400; message := "Invalid adjustment argument" |}) w2.
Proof.
  intros (worker & env1 & attrs & raw & channels & env2
          & Hw & Hp & Hg & Hi & Hnz & Hl & Hf & ->).
  unfold adjustChatCapacity. cbn [validWorkerSid validAdjustment].
  rewrite (bind_returned _ _ _ (Some worker) (advance w env1 [WorkerFetch (TWILIO_WORKSPACE_SID context) workerSid])).
  2:{ now rewrite (await_settled _ _ _ _ _ Hw). }
  rewrite Hp. cbn [lift]. rewrite bind_ret.
  rewrite Hg. cbn [lift]. rewrite bind_ret.
  rewrite Hi, Hnz.
  rewrite (bind_returned _ _ _ channels (advance (advance w env1 [WorkerFetch (TWILIO_WORKSPACE_SID context) workerSid]) env2 [WorkerChannelsList worker])).
  2:{ now rewrite (await_settled _ (workerChannels_list worker) (advance w env1 _) _ _ Hl). }
  rewrite Hf. rewrite advance_advance. reflexivity.
Qed.

Lemma adjust_located fuel context workerSid adjustment (w : World Env) max channel w2 :
  located context workerSid w max channel w2 ->
  adjustChatCapacity fuel context
    {| validWorkerSid := workerSid; validAdjustment := adjustment |} w
  = (if (adjustment =? "increase")%string then
      r <- increaseChatCapacity channel (Js.Num max) ;;
      ret (result r)
    else if (adjustment =? "increaseUntilCapacityAvailable")%string then
      looped <- increaseLoop fuel (Js.Num max)
                             {| status := 200; message := EmptyString |} channel ;;
      if (configuredCapacity (snd looped) =? max)
         && (availableCapacityPercentage (snd looped) =? 0) then
        ret {| status := 412;
               message := "Reached the max capacity with no available capacity." |}
      else
        ret {| status := 200;
               message := "Adjusted chat capacity until there is capacity available" |}
    else if (adjustment =? "decrease")%string then
      (if 1 <=? Js.pred (configuredCapacity channel) then
         await (ChannelUpdate channel (Js.pred (configuredCapacity channel)))
               (channel_update channel (Js.pred (configuredCapacity channel))) ;;;
         ret tt
       else ret tt) ;;;
      ret {| status := 200; message := "Successfully decreased channel capacity" |}
    else if (adjustment =? "setTo1")%string then
      if negb (configuredCapacity channel =? 1) then
        await (ChannelUpdate channel (Js.pred (configuredCapacity channel)))
              (channel_update channel (Js.pred (configuredCapacity channel))) ;;;
        ret {| status := 200; message := "Successfully reset channel capacity to 1" |}
      else
        ret {| status := 200;
               message := "Channel capacity already 1, no adjustment made." |}
    else
      ret {| status := 400; message := "Invalid adjustment argument" |}) w2.
Proof.
  intros Hloc. apply located_finite in Hloc.
  exact (adjust_located_at fuel context workerSid adjustment w (Js.Num max)
           channel w2 Hloc).
Qed.

End Increase.

Section Loop.
Context {Env : Type} `{Platform Env}.
Import AdjustChatCapacity.

(** One pass through the loop body, by cases on what the platform answers. *)
Lemma increase_step channel max (w : World Env) :
  match increaseChatCapacity channel max w with
  | (Returned r, _) =>
      status (result r) = 412 /\ updatedChannel r = channel
      \/ status (result r) = 200
         /\ Js.lt (Js.Num (configuredCapacity channel)) max = true
         /\ exists env env',
              channel_update channel (Js.succ (configuredCapacity channel)) env
              = (inr (updatedChannel r), env')
  | (Threw _, _) => True
  | (OutOfFuel, _) => False
  end.
Proof.
  destruct (Z.lt_ge_cases 0 (availableCapacityPercentage channel)) as [Hav|Hav].
  { rewrite increase_available by assumption. now left. }
  destruct (Js.lt (Js.Num (configuredCapacity channel)) max) eqn:Hc.
  - destruct (channel_update channel (Js.succ (configuredCapacity channel)) (remote w))
      as [r env'] eqn:Hup.
    rewrite (increase_updates _ _ _ _ _ Hav Hc Hup).
    destruct r as [e|updated]; [exact I|].
    right. cbn. repeat split. eauto.
  - rewrite increase_at_max by assumption. now left.
Qed.

Lemma loop_exit fuel max result channel (w : World Env) :
  status result <> 200 ->
  increaseLoop (S fuel) max result channel w = (Returned (result, channel), w).
Proof.
  intros Hs. cbn [increaseLoop].
  destruct (Z.eqb_spec (status result) 200); [contradiction | reflexivity].
Qed.

Lemma loop_more_fuel fuel : forall max result channel (w : World Env),
  fst (increaseLoop fuel max result channel w) <> OutOfFuel ->
  increaseLoop (S fuel) max result channel w = increaseLoop fuel max result channel w.
Proof.
  induction fuel as [|fuel IH]; intros max result channel w Hfin.
  - now contradiction Hfin.
  - revert Hfin. cbn [increaseLoop].
    destruct (status result =? 200); [|reflexivity].
    unfold bind.
    destruct (increaseChatCapacity channel max w) as [[r|e|] w']; try reflexivity.
    intros Hfin. now apply IH.
Qed.

Lemma loop_fuel_ge extra fuel max result channel (w : World Env) :
  fst (increaseLoop fuel max result channel w) <> OutOfFuel ->
  increaseLoop (extra + fuel) max result channel w
  = increaseLoop fuel max result channel w.
Proof.
  intros Hfin. induction extra as [|extra IH]; [reflexivity|].
  cbn [Nat.add]. rewrite loop_more_fuel; rewrite IH; auto.
Qed.

(** Below the ceiling, and with the ceiling in the exact range, a step up is
    a step of exactly one. *)
Lemma step_exact max c :
  bounded max -> - Js.limit <= c -> Js.lt (Js.Num c) max = true ->
  Js.succ c = c + 1
  /\ Js.lt max (Js.Num (c + 1)) = false
  /\ (room max (c + 1) < room max c)%nat.
Proof.
  intros Hmax Hc Hlt. destruct max as [|negative|z]; cbn [bounded Js.lt room negb] in *.
  - discriminate.
  - subst negative. discriminate.
  - apply Z.ltb_lt in Hlt. repeat split.
    + apply succ_exact. lia.
    + apply Z.ltb_ge. lia.
    + lia.
Qed.

(** The distance to the ceiling pays for the remaining passes; two more
    units pay for the pass that answers 412 and for the final test. *)
Lemma loop_terminates (Hupdate : update_sets_capacity) max (Hmax : bounded max) fuel :
  forall result channel (w : World Env),
  - Js.limit <= configuredCapacity channel ->
  (room max (configuredCapacity channel) + 2 <= fuel)%nat ->
  fst (increaseLoop fuel max result channel w) <> OutOfFuel.
Proof.
  induction fuel as [|fuel IH]; intros result channel w Hlow Hfuel; [lia|].
  cbn [increaseLoop].
  destruct (status result =? 200); [|discriminate].
  unfold bind.
  pose proof (increase_step channel max w) as Hstep.
  destruct (increaseChatCapacity channel max w) as [[r|e|] w'];
    [| discriminate | contradiction].
  destruct Hstep as [[Hs Hch] | (Hs & Hlt & env & env' & Hup)].
  - destruct fuel as [|fuel]; [lia|].
    rewrite loop_exit by (rewrite Hs; discriminate). discriminate.
  - destruct (step_exact max _ Hmax Hlow Hlt) as (Hexact & _ & Hroom).
    apply Hupdate in Hup. rewrite Hexact in Hup.
    apply IH; rewrite Hup; lia.
Qed.

End Loop.

Section Adjust.
Context {Env : Type} `{Platform Env}.
Import AdjustChatCapacity.

(** Either the lookups succeed, or the call ends before any branch on the
    adjustment, whatever the fuel. *)
Lemma adjust_lookups context body (w : World Env) :
  (exists max channel w2, located_at context (validWorkerSid body) w max channel w2)
  \/ (exists out, fst out <> OutOfFuel
        /\ forall fuel, adjustChatCapacity fuel context body w = out).
Proof.
  assert (Hend : forall out : Outcome StatusMessage * World Env,
             fst out <> OutOfFuel ->
             exists out', fst out' <> OutOfFuel /\ forall fuel : nat, out = out')
    by (intros out Hout; exists out; auto).
  unfold adjustChatCapacity, located_at, bind, await, lift, throw, ret.
  destruct (worker_fetch (TWILIO_WORKSPACE_SID context) (validWorkerSid body) (remote w))
    as [[e|[worker|]] env1] eqn:Hw; cbv beta iota;
    try (right; apply Hend; discriminate).
  destruct (JSON_parse (attributes worker)) as [e|attrs] eqn:Hp; cbv beta iota;
    [right; apply Hend; discriminate|].
  destruct (Js.get attrs "maxMessageCapacity") as [e|raw] eqn:Hg; cbv beta iota;
    [right; apply Hend; discriminate|].
  destruct (Js.falsy (parseInt10 raw)) eqn:Hi;
    [right; apply Hend; discriminate|].
  cbn [remote].
  destruct (workerChannels_list worker env1) as [[e|channels] env2] eqn:Hl;
    cbv beta iota; [right; apply Hend; discriminate|].
  destruct (find (fun c => (taskChannelUniqueName c =? "chat")%string) channels)
    as [channel|] eqn:Hf; [|right; apply Hend; discriminate].
  left. exists (parseInt10 raw), channel. eexists.
  exists worker, env1, attrs, raw, channels, env2. repeat split; eauto.
Qed.

(** With the ceiling and the channel in the exact range, enough fuel lets
    [adjustChatCapacity] end, and more fuel changes nothing. *)
Lemma adjust_enough_fuel (Hupdate : update_sets_capacity) context body (w : World Env) :
  (forall max channel w2,
      located_at context (validWorkerSid body) w max channel w2 ->
      bounded max /\ - Js.limit <= configuredCapacity channel) ->
  exists enough : nat,
    fst (adjustChatCapacity enough context body w) <> OutOfFuel
    /\ forall fuel, (enough <= fuel)%nat ->
         adjustChatCapacity fuel context body w
         = adjustChatCapacity enough context body w.
Proof.
  intros Hrange.
  destruct (adjust_lookups context body w)
    as [(max & channel & w2 & Hloc) | (out & Hout & Hsame)].
  - destruct (Hrange _ _ _ Hloc) as [Hmax Hlow].
    exists (room max (configuredCapacity channel) + 2)%nat.
    destruct body as [workerSid adjustment]. cbn [validWorkerSid] in Hloc.
    assert (Hfin : forall result,
               fst (increaseLoop (room max (configuredCapacity channel) + 2)
                      max result channel w2) <> OutOfFuel)
      by (intros; apply loop_terminates; [assumption | assumption | assumption | lia]).
    split.
    + rewrite (adjust_located_at _ _ _ _ _ _ _ _ Hloc).
      destruct (adjustment =? "increase")%string.
      { unfold bind.
        pose proof (increase_step channel max w2) as Hstep.
        destruct (increaseChatCapacity channel max w2) as [[r|e|] w'];
          [discriminate | discriminate | contradiction]. }
      destruct (adjustment =? "increaseUntilCapacityAvailable")%string.
      { unfold bind.
        specialize (Hfin {| status := 200; message := EmptyString |}).
        destruct (increaseLoop _ max _ channel w2) as [[r|e|] w'];
          [| discriminate | now contradiction Hfin].
        unfold ret. now destruct (_ && _). }
      destruct (adjustment =? "decrease")%string.
      { unfold bind, await, ret.
        destruct (1 <=? _); [|discriminate].
        destruct (channel_update _ _ _) as [[e|c] env']; discriminate. }
      destruct (adjustment =? "setTo1")%string; [|discriminate].
      unfold bind, await, ret.
      destruct (negb _); [|discriminate].
      destruct (channel_update _ _ _) as [[e|c] env']; discriminate.
    + intros fuel Hfuel.
      rewrite !(adjust_located_at _ _ _ _ _ _ _ _ Hloc).
      destruct (adjustment =? "increase")%string; [reflexivity|].
      destruct (adjustment =? "increaseUntilCapacityAvailable")%string;
        [|reflexivity].
      unfold bind.
      replace fuel
        with ((fuel - (room max (configuredCapacity channel) + 2))
              + (room max (configuredCapacity channel) + 2))%nat by lia.
      now rewrite loop_fuel_ge by apply Hfin.
  - exists 0%nat. rewrite Hsame. split; [assumption|].
    intros fuel _. apply Hsame.
Qed.

End Adjust.

Section Termination.
Context {Env : Type} `{Platform Env}.
Import AdjustChatCapacity.

(** Claim C1, amended.  Assume that an update to capacity [n] returns a
    channel whose configured capacity is [n], and let the ceiling be in the
    range where counting is exact (NaN, minus infinity, or at most 2^53).
    Then, for every channel whose configured capacity is at least -2^53: a
    pass through the body of the increaseUntilCapacityAvailable loop either
    throws, or answers a status other than 200, or returns a channel whose
    configured capacity is exactly one more than before and not above the
    ceiling; the loop needs at most [ceiling - configuredCapacity + 2]
    evaluations of its condition, and more fuel than that changes nothing;
    and [adjustChatCapacity] as a whole ends for every request whose
    lookups stay in that range. *)
Theorem increase_loop_terminates :
  update_sets_capacity ->
  forall max : Js.double,
    bounded max ->
    (forall channel (w : World Env),
        - Js.limit <= configuredCapacity channel ->
        match increaseChatCapacity channel max w with
        | (Returned r, _) =>
            status (result r) <> 200
            \/ configuredCapacity (updatedChannel r) = configuredCapacity channel + 1
               /\ Js.lt max (Js.Num (configuredCapacity (updatedChannel r))) = false
        | (Threw _, _) => True
        | (OutOfFuel, _) => False
        end)
    /\ (forall channel (w : World Env) fuel,
          - Js.limit <= configuredCapacity channel ->
          let enough := (room max (configuredCapacity channel) + 2)%nat in
          let start := {| status := 200; message := EmptyString |} in
          (enough <= fuel)%nat ->
          fst (increaseLoop enough max start channel w) <> OutOfFuel
          /\ increaseLoop fuel max start channel w
             = increaseLoop enough max start channel w)
    /\ (forall context body (w : World Env),
          (forall max' channel w2,
              located_at context (validWorkerSid body) w max' channel w2 ->
              bounded max' /\ - Js.limit <= configuredCapacity channel) ->
          exists enough : nat,
            fst (adjustChatCapacity enough context body w) <> OutOfFuel
            /\ forall fuel, (enough <= fuel)%nat ->
                 adjustChatCapacity fuel context body w
                 = adjustChatCapacity enough context body w).
Proof.
  intros Hupdate max Hmax. split; [|split].
  - intros channel w Hlow.
    pose proof (increase_step channel max w) as Hstep.
    destruct (increaseChatCapacity channel max w) as [[r|e|] w']; auto.
    destruct Hstep as [[Hs _] | (Hs & Hlt & env & env' & Hup)].
    + left. rewrite Hs. discriminate.
    + right. destruct (step_exact max _ Hmax Hlow Hlt) as (Hexact & Hle & _).
      apply Hupdate in Hup. rewrite Hup, Hexact. now split.
  - intros channel w fuel Hlow enough start Hfuel.
    assert (Hfin : fst (increaseLoop enough max start channel w) <> OutOfFuel)
      by (apply loop_terminates; [assumption | assumption | assumption | subst enough; lia]).
    split; [assumption|].
    replace fuel with ((fuel - enough) + enough)%nat by lia.
    now apply loop_fuel_ge.
  - intros context body w Hrange. now apply adjust_enough_fuel.
Qed.

End Termination.

Section Adjustments.
Context {Env : Type} `{Platform Env}.
Import AdjustChatCapacity.

(** Claim C2.  Once the worker and its chat channel are found,
    [adjustChatCapacity] with adjustment 'increase' answers 412 "Still have
    available capacity, no need to increase." without touching the platform
    when the available capacity percentage is positive; answers 412 "Reached
    the max capacity." without touching the platform when it is not positive
    and the configured capacity has reached [maxMessageCapacity]; and
    otherwise issues exactly one update, to the configured capacity plus
    one, and answers 200 when that update succeeds (it rethrows when the
    update is rejected).  The sum is the code's own [configuredCapacity + 1],
    the integer sum wherever that is a double. *)
Theorem increase_adjustment fuel context workerSid (w : World Env) max channel w2 :
  located context workerSid w max channel w2 ->
  let run := adjustChatCapacity fuel context
               {| validWorkerSid := workerSid; validAdjustment := "increase" |} w in
  (0 < availableCapacityPercentage channel ->
     run = (Returned {| status := 412;
                        message := "Still have available capacity, no need to increase." |},
            w2))
  /\ (availableCapacityPercentage channel <= 0 ->
      configuredCapacity channel >= max ->
      run = (Returned {| status := 412; message := "Reached the max capacity." |}, w2))
  /\ (availableCapacityPercentage channel <= 0 ->
      configuredCapacity channel < max ->
      forall r env',
        channel_update channel (Js.succ (configuredCapacity channel)) (remote w2)
        = (r, env') ->
        run = (match r with
               | inl e => Threw e
               | inr _ => Returned {| status := 200;
                                      message := "Successfully increased channel capacity" |}
               end,
               advance w2 env'
                 [ChannelUpdate channel (Js.succ (configuredCapacity channel))]))
  /\ (- Js.limit <= configuredCapacity channel < Js.limit ->
      Js.succ (configuredCapacity channel) = configuredCapacity channel + 1).
Proof.
  intros Hloc run. subst run.
  rewrite (adjust_located _ _ _ _ _ _ _ _ Hloc). cbn [String.eqb Ascii.eqb Bool.eqb].
  split; [|split; [|split]].
  - intros Hav. unfold bind. now rewrite increase_available.
  - intros Hav Hmax. unfold bind. rewrite increase_at_max; [reflexivity | lia |].
    apply Z.ltb_ge. lia.
  - intros Hav Hmax r env' Hup. unfold bind.
    assert (Hlt : Js.lt (Js.Num (configuredCapacity channel)) (Js.Num max) = true)
      by (apply Z.ltb_lt; assumption).
    rewrite (increase_updates _ _ _ _ _ Hav Hlt Hup). now destruct r.
  - apply succ_exact.
Qed.

(** Claim C5.  Once the worker and its chat channel are found,
    [adjustChatCapacity] with adjustment 'setTo1' on a channel whose
    configured capacity [c] is not 1 issues exactly one update, to [c - 1],
    and answers 200 "Successfully reset channel capacity to 1" when the
    update succeeds; when [c] is 1 it issues no update and answers 200
    "Channel capacity already 1, no adjustment made.".  The difference is
    the code's own [configuredCapacity - 1], the integer difference wherever
    that is a double. *)
Theorem setTo1_adjustment fuel context workerSid (w : World Env) max channel w2 :
  located context workerSid w max channel w2 ->
  let run := adjustChatCapacity fuel context
               {| validWorkerSid := workerSid; validAdjustment := "setTo1" |} w in
  (configuredCapacity channel <> 1 ->
     forall r env',
       channel_update channel (Js.pred (configuredCapacity channel)) (remote w2)
       = (r, env') ->
       run = (match r with
              | inl e => Threw e
              | inr _ => Returned {| status := 200;
                                     message := "Successfully reset channel capacity to 1" |}
              end,
              advance w2 env'
                [ChannelUpdate channel (Js.pred (configuredCapacity channel))]))
  /\ (configuredCapacity channel = 1 ->
      run = (Returned {| status := 200;
                         message := "Channel capacity already 1, no adjustment made." |},
             w2))
  /\ (- Js.limit < configuredCapacity channel <= Js.limit ->
      Js.pred (configuredCapacity channel) = configuredCapacity channel - 1).
Proof.
  intros Hloc run. subst run.
  rewrite (adjust_located _ _ _ _ _ _ _ _ Hloc). cbn [String.eqb Ascii.eqb Bool.eqb].
  split; [|split].
  - intros Hc r env' Hup.
    destruct (Z.eqb_spec (configuredCapacity channel) 1); [contradiction|].
    cbn [negb]. unfold bind. rewrite (await_settled _ _ _ _ _ Hup). now destruct r.
  - intros Hc. rewrite Hc. reflexivity.
  - apply pred_exact.
Qed.

(** Claim C9.  Once the worker and its chat channel are found,
    [adjustChatCapacity] with adjustment 'decrease' issues the update to
    [c - 1] exactly when [c - 1 >= 1] and no update otherwise, and answers
    200 "Successfully decreased channel capacity" in both cases; every
    update it issues asks for a capacity of at least 1, so a configured
    capacity that was at least 1 stays at least 1.  The difference is the
    code's own [configuredCapacity - 1], the integer difference wherever
    that is a double. *)
Theorem decrease_adjustment fuel context workerSid (w : World Env) max channel w2 :
  located context workerSid w max channel w2 ->
  let run := adjustChatCapacity fuel context
               {| validWorkerSid := workerSid; validAdjustment := "decrease" |} w in
  let done := {| status := 200; message := "Successfully decreased channel capacity" |} in
  (configuredCapacity channel - 1 >= 1 ->
     forall r env',
       channel_update channel (Js.pred (configuredCapacity channel)) (remote w2)
       = (r, env') ->
       run = (match r with inl e => Threw e | inr _ => Returned done end,
              advance w2 env'
                [ChannelUpdate channel (Js.pred (configuredCapacity channel))]))
  /\ (~ configuredCapacity channel - 1 >= 1 -> run = (Returned done, w2))
  /\ (forall new,
        calls (snd run) = (calls w2 ++ new)%list ->
        (forall c n, In (ChannelUpdate c n) new -> n >= 1)
        /\ (configuredCapacity channel >= 1 ->
            capacityAfter (configuredCapacity channel) new >= 1))
  /\ (- Js.limit < configuredCapacity channel <= Js.limit ->
      Js.pred (configuredCapacity channel) = configuredCapacity channel - 1).
Proof.
  intros Hloc run done. subst run.
  rewrite (adjust_located _ _ _ _ _ _ _ _ Hloc). cbn [String.eqb Ascii.eqb Bool.eqb].
  pose proof (pred_ge_1 (configuredCapacity channel)) as Hguard.
  assert (Hyes : configuredCapacity channel - 1 >= 1 ->
     forall r env',
       channel_update channel (Js.pred (configuredCapacity channel)) (remote w2)
       = (r, env') ->
       ((if 1 <=? Js.pred (configuredCapacity channel)
         then await (ChannelUpdate channel (Js.pred (configuredCapacity channel)))
                    (channel_update channel (Js.pred (configuredCapacity channel)))
              ;;; ret tt
         else ret tt) ;;; ret done) w2
       = (match r with inl e => Threw e | inr _ => Returned done end,
          advance w2 env'
            [ChannelUpdate channel (Js.pred (configuredCapacity channel))])).
  { intros Hc r env' Hup.
    destruct (Z.leb_spec 1 (Js.pred (configuredCapacity channel))); [|lia].
    unfold bind. rewrite (await_settled _ _ _ _ _ Hup). now destruct r. }
  assert (Hno : ~ configuredCapacity channel - 1 >= 1 ->
       ((if 1 <=? Js.pred (configuredCapacity channel)
         then await (ChannelUpdate channel (Js.pred (configuredCapacity channel)))
                    (channel_update channel (Js.pred (configuredCapacity channel)))
              ;;; ret tt
         else ret tt) ;;; ret done) w2 = (Returned done, w2)).
  { intros Hc. destruct (Z.leb_spec 1 (Js.pred (configuredCapacity channel))); [lia|].
    reflexivity. }
  split; [exact Hyes | split; [exact Hno | split; [|apply pred_exact]]].
  intros new Hnew.
  destruct (Z_ge_dec (configuredCapacity channel - 1) 1) as [Hc|Hc].
  - destruct (channel_update channel (Js.pred (configuredCapacity channel)) (remote w2))
      as [r env'] eqn:Hup.
    fold done in Hnew. rewrite (Hyes Hc _ _ eq_refl) in Hnew. cbn in Hnew.
    apply app_inv_head in Hnew. subst new. split.
    + intros c n [Hin|[]]. injection Hin as _ <-. lia.
    + intros _. cbn. lia.
  - fold done in Hnew. rewrite (Hno Hc) in Hnew. cbn in Hnew.
    rewrite <- (app_nil_r (calls w2)) in Hnew at 1.
    apply app_inv_head in Hnew. subst new. split.
    + intros c n [].
    + intros Hge. exact Hge.
Qed.

(** Claim C8, amended.  The exported handler of adjustChatCapacity runs the
    token check of its wrapper first.  An event the check refuses is
    answered by the wrapper with the refusal.  An event the check lets
    through is answered [error400 "workerSid"] when [workerSid] is
    undefined, and otherwise [error400 "adjustment"] when [adjustment] is
    undefined, in both cases with no call beyond the token check; when both
    are present [adjustChatCapacity] runs and the handler resolves its
    status and message (or [error500] with what it threw); a [send]
    response therefore only occurs when both fields are present. *)
Theorem handler_validates fuel context event (w : World Env) verdict env' :
  token_check (Token event) (remote w) = (verdict, env') ->
  let checked := advance w env' [TokenCheck (Token event)] in
  let answer r := (Returned tt,
                   {| remote := env'; calls := calls w ++ [TokenCheck (Token event)];
                      resolved := resolved w ++ [r] |}) in
  (forall refusal, verdict = inl refusal ->
     handler fuel context event w = answer refusal)
  /\ (forall pass, verdict = inr pass ->
        (workerSid event = None ->
           handler fuel context event w = answer (error400 "workerSid"))
        /\ (forall worker, workerSid event = Some worker -> adjustment event = None ->
              handler fuel context event w = answer (error400 "adjustment"))
        /\ (forall worker adjust,
              workerSid event = Some worker -> adjustment event = Some adjust ->
              handler fuel context event w =
                match adjustChatCapacity fuel context
                        {| validWorkerSid := worker; validAdjustment := adjust |}
                        checked with
                | (Returned r, w') =>
                    resolve (send (status r)
                               {| status := status r; message := message r |}) w'
                | (Threw e, w') => resolve (error500 e) w'
                | (OutOfFuel, w') => (OutOfFuel, w')
                end)
        /\ (forall code content,
              In (send code content) (resolved (snd (handler fuel context event w))) ->
              ~ In (send code content) (resolved w) ->
              workerSid event <> None /\ adjustment event <> None)).
Proof.
  intros Hcheck checked answer.
  assert (Hrun : handler fuel context event w =
                 match verdict with
                 | inl refusal => answer refusal
                 | inr _ => validated fuel context event checked
                 end).
  { unfold handler, TokenValidator. rewrite Hcheck. now destruct verdict. }
  split.
  { intros refusal ->. exact Hrun. }
  intros pass ->.
  assert (H1 : workerSid event = None ->
     handler fuel context event w = answer (error400 "workerSid")).
  { intros Hw. rewrite Hrun. unfold validated. rewrite Hw. reflexivity. }
  assert (H2 : forall worker, workerSid event = Some worker -> adjustment event = None ->
        handler fuel context event w = answer (error400 "adjustment")).
  { intros worker Hw Ha. rewrite Hrun. unfold validated. rewrite Hw, Ha. reflexivity. }
  split; [exact H1 | split; [exact H2 | split]].
  - intros worker adjust Hw Ha. rewrite Hrun. unfold validated. rewrite Hw, Ha.
    unfold try_catch, bind.
    now destruct (adjustChatCapacity _ _ _ checked) as [[r|e|] w'].
  - intros code content Hin Hnot.
    destruct (workerSid event) as [worker|] eqn:Hw.
    + destruct (adjustment event) as [adjust|] eqn:Ha; [split; discriminate|].
      rewrite (H2 worker eq_refl eq_refl) in Hin. cbn in Hin.
      apply in_app_or in Hin. destruct Hin as [Hin|[Hin|[]]];
        [contradiction | discriminate].
    + rewrite (H1 eq_refl) in Hin. cbn in Hin.
      apply in_app_or in Hin. destruct Hin as [Hin|[Hin|[]]];
        [contradiction | discriminate].
Qed.

End Adjustments.


(** ** The transfer helper *)

Section Transfer.
Context {Env : Type} `{Platform Env}.
Import TransferHelpers.

(** Claim C3.  [hasTaskControl] answers true, without fetching anything,
    whenever the task attributes hold no [transferMeta]; when [transferMeta]
    is present and the task is fetched, it answers true if and only if
    [sidWithTaskControl] equals the sid of the fetched task. *)
Theorem task_control workspaceSid taskSid (w : World Env) :
  (forall taskAttributes,
      hasTransferStarted taskAttributes = false ->
      hasTaskControl workspaceSid taskSid taskAttributes w = (Returned true, w))
  /\ (forall targetType,
        hasTaskControl workspaceSid taskSid
          (Some {| transferMeta := None; transferTargetType := targetType |}) w
        = (Returned true, w))
  /\ (forall attrs meta task env',
        transferMeta attrs = Some meta ->
        task_fetch workspaceSid taskSid (remote w) = (inr task, env') ->
        exists answer,
          hasTaskControl workspaceSid taskSid (Some attrs) w
          = (Returned answer, advance w env' [TaskFetch workspaceSid taskSid])
          /\ (answer = true <-> sidWithTaskControl meta = sid task)).
Proof.
  split; [|split].
  - intros taskAttributes Hno. unfold hasTaskControl. now rewrite Hno.
  - reflexivity.
  - intros attrs meta task env' Hmeta Hfetch.
    exists (sidWithTaskControl meta =? sid task)%string. split.
    + unfold hasTaskControl, hasTransferStarted. rewrite Hmeta. cbn [negb].
      unfold bind. now rewrite (await_settled _ _ _ _ _ Hfetch).
    + apply String.eqb_eq.
Qed.

End Transfer.

(** ** The SaferNet proxy *)

Section SaferNet.
Context {Env : Type} `{Platform Env}.
Import SaveContactToSaferNet.

(** The validation step adds at most a token check to the log and hands
    nothing to the callback. *)
Lemma isValidRequest_frame context event (w : World Env) :
  exists answer env' cs,
    isValidRequest context event w = (Returned answer, advance w env' cs)
    /\ forall c, In c cs -> exists t a k, c = ValidateToken t a k.
Proof.
  unfold isValidRequest.
  destruct (Js.truthy_opt_string (Token event)).
  - unfold try_catch, bind, await, ret.
    destruct (validateToken _ _ _ (remote w)) as [[e|[]] env'].
    + exists false, env'. eexists. split; [reflexivity|].
      intros c [<-|[]]. eauto.
    + exists true, env'. eexists. split; [reflexivity|].
      intros c [<-|[]]. eauto.
  - assert (Hsame : forall b : bool, (Returned b, w) = (Returned b, advance w (remote w) [])).
    { intros b. unfold advance. rewrite app_nil_r. now destruct w. }
    destruct (Js.truthy_opt_string (ApiKey event)); unfold ret.
    + eexists. exists (remote w), []. split; [apply Hsame | intros c []].
    + exists false, (remote w), []. split; [apply Hsame | intros c []].
Qed.

(** The [try] block and its [catch], by cases on what throws. *)
Lemma forward_cases context event (w : World Env) :
  let guarded := try_catch (forward context event)
                           (fun err => resolve (error500 err)) in
  let answer (w' : World Env) r :=
    (Returned tt, {| remote := remote w'; calls := calls w';
                     resolved := resolved w' ++ [r] |}) in
  match encodeURIComponent (payload event), JSON_parse (payload event) with
  | inl e, _ => guarded w = answer w (error500 e)
  | inr _, inl e => guarded w = answer w (error500 e)
  | inr encoded, inr parsed =>
      let request :=
        saferNetRequest context (hmac_sha256_hex (SAFERNET_TOKEN context) encoded)
                        parsed in
      let w' := advance w (snd (axios request (remote w))) [AxiosCall request] in
      match fst (axios request (remote w)) with
      | inl e => guarded w = answer w' (error500 e)
      | inr response =>
          match Js.get (responseData response) "success",
                Js.get (responseData response) "post_survey_link",
                Js.get (responseData response) "error_message" with
          | inr ok, inr link, inr errorMessage =>
              guarded w = answer w' (if Js.truthy ok then success link
                                     else error500 (Js.Error errorMessage))
          | _, _, _ =>
              guarded w = answer w' (error500 (Js.TypeError "success"))
          end
      end
  end.
Proof.
  intros guarded answer. subst guarded. unfold try_catch, forward.
  destruct (encodeURIComponent (payload event)) as [e|encoded]; [reflexivity|].
  cbn [lift]. rewrite bind_ret.
  destruct (JSON_parse (payload event)) as [e|parsed]; [reflexivity|].
  cbn [lift]. rewrite bind_ret.
  cbv zeta.
  destruct (axios _ (remote w)) as [r env'] eqn:Hax.
  rewrite (bind_await _ _ _ _ _ _ Hax). cbn [fst snd].
  destruct r as [e|response]; [reflexivity|].
  destruct (responseData response) as [| |b|n|s|fields|items];
    cbn [Js.get lift]; rewrite ?bind_throw, ?bind_ret; try reflexivity.
  destruct (Js.truthy (Js.lookup "success" fields));
    rewrite ?bind_ret; reflexivity.
Qed.

Lemma handler_valid context event (w : World Env) :
  SAFERNET_ENDPOINT context <> EmptyString ->
  SAFERNET_TOKEN context <> EmptyString ->
  SAVE_PENDING_CONTACTS_STATIC_KEY context <> EmptyString ->
  handler context event w =
    match isValidRequest context event w with
    | (Returned true, w1) =>
        try_catch (forward context event) (fun err => resolve (error500 err)) w1
    | (Returned false, w1) => resolve (error403 "No AccessToken or ApiKey was found") w1
    | (Threw e, w1) => (Threw e, w1)
    | (OutOfFuel, w1) => (OutOfFuel, w1)
    end.
Proof.
  intros He Ht Hk. unfold handler, Js.truthy_string.
  apply String.eqb_neq in He, Ht, Hk. rewrite He, Ht, Hk. cbn [negb].
  unfold bind. now destruct (isValidRequest context event w) as [[[|]|e|] w1].
Qed.

(** What the guarded [try] block adds to the log: nothing, or the one
    request to SaferNet. *)
Lemma guarded_calls context event (w : World Env) :
  let after := snd (try_catch (forward context event)
                              (fun err => resolve (error500 err)) w) in
  calls after = calls w
  \/ exists encoded parsed,
       encodeURIComponent (payload event) = inr encoded
       /\ JSON_parse (payload event) = inr parsed
       /\ calls after =
          (calls w ++ [AxiosCall (saferNetRequest context
                         (hmac_sha256_hex (SAFERNET_TOKEN context) encoded) parsed)])%list.
Proof.
  pose proof (forward_cases context event w) as Hcases. cbv zeta in *.
  destruct (encodeURIComponent (payload event)) as [e|encoded];
    [rewrite Hcases; now left|].
  destruct (JSON_parse (payload event)) as [e|parsed];
    [rewrite Hcases; now left|].
  right. exists encoded, parsed. repeat split.
  destruct (fst (axios _ (remote w))) as [e|response]; [now rewrite Hcases|].
  destruct (Js.get (responseData response) "success");
    destruct (Js.get (responseData response) "post_survey_link");
    destruct (Js.get (responseData response) "error_message");
    now rewrite Hcases.
Qed.

(** The guarded [try] block hands exactly one response to the callback. *)
Lemma guarded_resolves context event (w : World Env) :
  exists r w',
    try_catch (forward context event) (fun err => resolve (error500 err)) w
    = (Returned tt, w')
    /\ resolved w' = (resolved w ++ [r])%list.
Proof.
  pose proof (forward_cases context event w) as Hcases. cbv zeta in *.
  destruct (encodeURIComponent (payload event)) as [e|encoded];
    [rewrite Hcases; do 2 eexists; split; reflexivity|].
  destruct (JSON_parse (payload event)) as [e|parsed];
    [rewrite Hcases; do 2 eexists; split; reflexivity|].
  destruct (fst (axios _ (remote w))) as [e|response]; [rewrite Hcases; do 2 eexists; split; reflexivity|].
  destruct (Js.get (responseData response) "success");
    destruct (Js.get (responseData response) "post_survey_link");
    destruct (Js.get (responseData response) "error_message");
    rewrite Hcases; do 2 eexists; split; reflexivity.
Qed.

(** Claim C4.  For every payload, any request the SaferNet handler sends
    goes by POST to the SaferNet endpoint with the parsed payload as its
    body and an X-Signature header made of "sha256=" followed by the hex
    HMAC-SHA256, keyed with SAFERNET_TOKEN, of the URI-encoded payload; and
    an authorised call whose payload encodes and parses sends exactly that
    one request. *)
Theorem safernet_signature context event (w : World Env) :
  (forall new request,
      issues (handler context event) w new ->
      In (AxiosCall request) new ->
      exists encoded,
        encodeURIComponent (payload event) = inr encoded
        /\ JSON_parse (payload event) = inr (data request)
        /\ url request = SAFERNET_ENDPOINT context
        /\ method request = "POST"
        /\ headers request =
           [ ("Content-Type", "application/json");
             ("X-Signature",
              "sha256=" ++ hmac_sha256_hex (SAFERNET_TOKEN context) encoded) ])
  /\ (forall w1 encoded parsed,
        SAFERNET_ENDPOINT context <> EmptyString ->
        SAFERNET_TOKEN context <> EmptyString ->
        SAVE_PENDING_CONTACTS_STATIC_KEY context <> EmptyString ->
        isValidRequest context event w = (Returned true, w1) ->
        encodeURIComponent (payload event) = inr encoded ->
        JSON_parse (payload event) = inr parsed ->
        calls (snd (handler context event w)) =
          (calls w1 ++ [AxiosCall (saferNetRequest context
                          (hmac_sha256_hex (SAFERNET_TOKEN context) encoded) parsed)])%list).
Proof.
  split.
  - intros new request Hnew Hin. unfold issues in Hnew.
    assert (Hquiet : calls (snd (handler context event w)) = calls w -> False).
    { intros Hq. rewrite Hq in Hnew. apply app_same_nil in Hnew. now subst new. }
    destruct (String.eqb_spec (SAFERNET_ENDPOINT context) EmptyString) as [He|He];
      [exfalso; apply Hquiet; unfold handler, Js.truthy_string;
       rewrite He; reflexivity|].
    destruct (String.eqb_spec (SAFERNET_TOKEN context) EmptyString) as [Ht|Ht];
      [exfalso; apply Hquiet; unfold handler, Js.truthy_string;
       apply String.eqb_neq in He; rewrite He, Ht; reflexivity|].
    destruct (String.eqb_spec (SAVE_PENDING_CONTACTS_STATIC_KEY context) EmptyString) as [Hk|Hk];
      [exfalso; apply Hquiet; unfold handler, Js.truthy_string;
       apply String.eqb_neq in He, Ht; rewrite He, Ht, Hk; reflexivity|].
    clear Hquiet. rewrite (handler_valid _ _ _ He Ht Hk) in Hnew.
    destruct (isValidRequest_frame context event w)
      as (answer & env' & cs & Hvalid & Hcs).
    rewrite Hvalid in Hnew.
    assert (Hcheck : ~ In (AxiosCall request) cs).
    { intros Hc. apply Hcs in Hc. destruct Hc as (t & a & k & Hc). discriminate. }
    destruct answer.
    + destruct (guarded_calls context event (advance w env' cs))
        as [Hsame | (encoded & parsed & Henc & Hparse & Hcalls)]; cbv zeta in *.
      * rewrite Hsame in Hnew. cbn in Hnew. apply app_inv_head in Hnew.
        subst new. contradiction.
      * rewrite Hcalls in Hnew. cbn in Hnew. rewrite <- app_assoc in Hnew.
        apply app_inv_head in Hnew. subst new.
        apply in_app_or in Hin. destruct Hin as [Hin|[Hin|[]]]; [contradiction|].
        injection Hin as <-. exists encoded. cbn. auto.
    + cbn in Hnew. apply app_inv_head in Hnew. subst new. contradiction.
  - intros w1 encoded parsed He Ht Hk Hvalid Henc Hparse.
    rewrite (handler_valid _ _ _ He Ht Hk), Hvalid.
    destruct (guarded_calls context event w1)
      as [Hsame | (encoded' & parsed' & Henc' & Hparse' & Hcalls)]; cbv zeta in *.
    + exfalso. pose proof (forward_cases context event w1) as Hcases.
      cbv zeta in Hcases. rewrite Henc, Hparse in Hcases.
      destruct (fst (axios _ (remote w1))) as [e|response].
      * rewrite Hcases in Hsame. cbn in Hsame. symmetry in Hsame.
        now apply app_same_nil in Hsame.
      * destruct (Js.get (responseData response) "success");
          destruct (Js.get (responseData response) "post_survey_link");
          destruct (Js.get (responseData response) "error_message");
          rewrite Hcases in Hsame; cbn in Hsame; symmetry in Hsame;
          now apply app_same_nil in Hsame.
    + rewrite Henc in Henc'. rewrite Hparse in Hparse'.
      injection Henc' as <-. injection Hparse' as <-. exact Hcalls.
Qed.

(** Claim C7.  For an authorised call of the SaferNet handler the callback
    receives exactly one response: [success] with [post_survey_link] when
    the reply's [success] field is truthy, [error500] carrying
    [error_message] when it is not, and [error500] with the thrown value
    when the request, the reading of the reply, [JSON.parse] or the encoding
    throws (in the last two cases before any request is sent). *)
Theorem safernet_outcomes context event (w w1 : World Env) :
  SAFERNET_ENDPOINT context <> EmptyString ->
  SAFERNET_TOKEN context <> EmptyString ->
  SAVE_PENDING_CONTACTS_STATIC_KEY context <> EmptyString ->
  isValidRequest context event w = (Returned true, w1) ->
  let run := handler context event w in
  let request encoded parsed :=
    saferNetRequest context (hmac_sha256_hex (SAFERNET_TOKEN context) encoded) parsed in
  (exists r, fst run = Returned tt /\ resolves (handler context event) w [r])
  /\ (forall encoded parsed response env' ok,
        encodeURIComponent (payload event) = inr encoded ->
        JSON_parse (payload event) = inr parsed ->
        axios (request encoded parsed) (remote w1) = (inr response, env') ->
        Js.get (responseData response) "success" = inr ok ->
        (Js.truthy ok = true ->
           exists link,
             Js.get (responseData response) "post_survey_link" = inr link
             /\ resolves (handler context event) w [success link])
        /\ (Js.truthy ok = false ->
            exists errorMessage,
              Js.get (responseData response) "error_message" = inr errorMessage
              /\ resolves (handler context event) w
                           [error500 (Js.Error errorMessage)]))
  /\ (forall encoded parsed e env',
        encodeURIComponent (payload event) = inr encoded ->
        JSON_parse (payload event) = inr parsed ->
        axios (request encoded parsed) (remote w1) = (inl e, env') ->
        resolves (handler context event) w [error500 e])
  /\ (forall encoded parsed response env' e,
        encodeURIComponent (payload event) = inr encoded ->
        JSON_parse (payload event) = inr parsed ->
        axios (request encoded parsed) (remote w1) = (inr response, env') ->
        Js.get (responseData response) "success" = inl e ->
        resolves (handler context event) w [error500 e])
  /\ (forall e,
        (encodeURIComponent (payload event) = inl e
         \/ (exists encoded, encodeURIComponent (payload event) = inr encoded)
            /\ JSON_parse (payload event) = inl e) ->
        resolves (handler context event) w [error500 e]
        /\ calls (snd run) = calls w1).
Proof.
  intros He Ht Hk Hvalid run request. subst run. unfold resolves.
  rewrite (handler_valid _ _ _ He Ht Hk), Hvalid.
  assert (Hres : resolved w1 = resolved w).
  { destruct (isValidRequest_frame context event w) as (a & env' & cs & Hv & _).
    rewrite Hv in Hvalid. injection Hvalid as _ <-. reflexivity. }
  rewrite <- Hres.
  pose proof (forward_cases context event w1) as Hcases. cbv zeta in Hcases.
  split; [|split; [|split; [|split]]].
  - destruct (guarded_resolves context event w1) as (r & w' & Hrun & Hr).
    exists r. rewrite Hrun. auto.
  - intros encoded parsed response env' ok Henc Hparse Hax Hok.
    rewrite Henc, Hparse in Hcases. fold (request encoded parsed) in Hcases.
    rewrite Hax in Hcases. cbn [fst snd] in Hcases. rewrite Hok in Hcases.
    assert (Hlink : exists link,
               Js.get (responseData response) "post_survey_link" = inr link).
    { destruct (responseData response); try discriminate; cbn; eauto. }
    assert (Hmsg : exists msg,
               Js.get (responseData response) "error_message" = inr msg).
    { destruct (responseData response); try discriminate; cbn; eauto. }
    destruct Hlink as (link & Hlink). destruct Hmsg as (msg & Hmsg).
    rewrite Hlink, Hmsg in Hcases. rewrite Hcases.
    split; intros Htruthy; rewrite Htruthy; eauto.
  - intros encoded parsed e env' Henc Hparse Hax.
    rewrite Henc, Hparse in Hcases. fold (request encoded parsed) in Hcases.
    rewrite Hax in Hcases. cbn [fst snd] in Hcases. now rewrite Hcases.
  - intros encoded parsed response env' e Henc Hparse Hax Hget.
    rewrite Henc, Hparse in Hcases. fold (request encoded parsed) in Hcases.
    rewrite Hax in Hcases. cbn [fst snd] in Hcases. rewrite Hget in Hcases.
    rewrite Hcases.
    destruct (responseData response); try discriminate;
      cbn in Hget; now injection Hget as <-.
  - intros e [Henc | [(encoded & Henc) Hparse]].
    + rewrite Henc in Hcases. now rewrite Hcases.
    + rewrite Henc, Hparse in Hcases. now rewrite Hcases.
Qed.

End SaferNet.

(** ** The unsupported-media relay *)


Section Media.
Context {Env : Type} `{Platform Env}.
Import UnsupportedMedia.

(** The text after the guarded translation download. *)
Lemma translate_guarded context helplineLanguage fallback (w : World Env) r env' :
  http_fetch (translationAddress context helplineLanguage) (remote w) = (r, env') ->
  try_catch (translate context helplineLanguage fallback) (fun _ => ret fallback) w
  = (Returned
       match r with
       | inr response =>
           match json response with
           | inr translation =>
               match Js.get translation ERROR_MESSAGE_TRANSLATION_KEY with
               | inr translated => Js.or translated fallback
               | inl _ => fallback
               end
           | inl _ => fallback
           end
       | inl _ => fallback
       end,
     advance w env' [HttpFetch (translationAddress context helplineLanguage)]).
Proof.
  intros Hfetch. unfold try_catch, translate.
  fold (translationAddress context helplineLanguage).
  rewrite (bind_await _ _ _ _ _ _ Hfetch).
  destruct r as [e|response]; [reflexivity|].
  destruct (json response) as [e|translation]; cbn [lift];
    rewrite ?bind_throw, ?bind_ret; [reflexivity|].
  destruct (Js.get translation ERROR_MESSAGE_TRANSLATION_KEY) as [e|translated];
    cbn [lift]; rewrite ?bind_throw, ?bind_ret; reflexivity.
Qed.

Lemma or_truthy a b : Js.truthy b = true -> Js.truthy (Js.or a b) = true.
Proof. intros Hb. unfold Js.or. now destruct (Js.truthy a) eqn:Ha. Qed.

(** The run of the error branch once the configuration has been read. *)
Lemma error_branch context event (w : World Env) config env1 language :
  Js.truthy_opt_string (Body event) = false ->
  Media event = None ->
  flex_configuration_fetch (remote w) = (inr config, env1) ->
  Js.get (configAttributes config) "helplineLanguage" = inr language ->
  let helplineLanguage := Js.nullish language (Js.str "en-US") in
  let address := translationAddress context helplineLanguage in
  exists text w1,
    sendErrorMessageForUnsupportedMedia context event w
    = sendConversationMessage (ConversationSid event) "Bot" text None w1
    /\ calls w1 = (calls w ++ FlexConfigurationFetch
                     :: if Js.truthy helplineLanguage then [HttpFetch address] else [])%list
    /\ Js.truthy text = true
    /\ (forall translated,
          translationYields context helplineLanguage env1 translated ->
          text = translated)
    /\ ((forall translated,
           ~ translationYields context helplineLanguage env1 translated) ->
        text = Js.str FALLBACK_ERROR_MESSAGE).
Proof.
  intros Hbody Hmedia Hconfig Hlang helplineLanguage address.
  unfold sendErrorMessageForUnsupportedMedia.
  rewrite Hbody, Hmedia. cbn [negb truthy_media andb]. cbv zeta.
  rewrite (bind_await _ _ _ _ _ _ Hconfig). rewrite Hlang. cbn [lift].
  rewrite bind_ret. fold helplineLanguage.
  unfold translationYields. fold address.
  destruct (Js.truthy helplineLanguage) eqn:Htruthy.
  - destruct (http_fetch address env1) as [r env2] eqn:Hfetch.
    unfold bind at 1.
    rewrite (translate_guarded context helplineLanguage _
               (advance w env1 [FlexConfigurationFetch]) r env2 Hfetch).
    eexists. eexists. split; [reflexivity|].
    split; [cbn; now rewrite <- app_assoc|].
    destruct r as [e|response].
    { split; [reflexivity|]. split; [|reflexivity].
      intros translated (_ & response & env' & translation & Hx & _). discriminate. }
    destruct (json response) as [e|translation] eqn:Hjson.
    { split; [reflexivity|]. split; [|reflexivity].
      intros translated (_ & response' & env' & translation & Hx & Hy & _).
      injection Hx as <- _. rewrite Hjson in Hy. discriminate. }
    destruct (Js.get translation ERROR_MESSAGE_TRANSLATION_KEY) as [e|translated] eqn:Hget.
    { split; [reflexivity|]. split; [|reflexivity].
      intros translated (_ & response' & env' & translation' & Hx & Hy & Hz & _).
      injection Hx as <- _. rewrite Hjson in Hy. injection Hy as <-.
      rewrite Hget in Hz. discriminate. }
    split; [now apply or_truthy|].
    unfold Js.or. destruct (Js.truthy translated) eqn:Ht.
    + split.
      * intros translated' (_ & response' & env' & translation' & Hx & Hy & Hz & _).
        injection Hx as <- _. rewrite Hjson in Hy. injection Hy as <-.
        rewrite Hget in Hz. now injection Hz.
      * intros Hnone. exfalso. apply (Hnone translated).
        split; [reflexivity|]. exists response, env2, translation. auto.
    + split; [|reflexivity].
      intros translated' (_ & response' & env' & translation' & Hx & Hy & Hz & Hv).
      injection Hx as <- _. rewrite Hjson in Hy. injection Hy as <-.
      rewrite Hget in Hz. injection Hz as <-. congruence.
  - rewrite bind_ret. eexists. eexists. split; [reflexivity|].
    split; [reflexivity|]. split; [reflexivity|]. split; [|reflexivity].
    intros translated (Hx & _). discriminate.
Qed.

End Media.

Section MediaClaims.
Context {Env : Type} `{Platform Env}.
Import UnsupportedMedia.

Lemma send_message_calls conversation author text attrs (w : World Env) :
  calls (snd (sendConversationMessage conversation author text attrs w))
  = (calls w ++ [MessageCreate conversation
                   {| body := text; author := author;
                      xTwilioWebhookEnabled := "true";
                      messageAttributes :=
                        if Js.truthy_opt_string attrs then attrs else None |}])%list.
Proof.
  unfold sendConversationMessage, await.
  now destruct (messages_create _ _ (remote w)) as [[e|[]] env'].
Qed.

Lemma guard_false context event (w : World Env) :
  negb (Js.truthy_opt_string (Body event)) && negb (truthy_media (Media event)) = false ->
  sendErrorMessageForUnsupportedMedia context event w = (Returned tt, w).
Proof.
  intros Hguard. unfold sendErrorMessageForUnsupportedMedia. now rewrite Hguard.
Qed.

Lemma guard_true event :
  negb (Js.truthy_opt_string (Body event)) && negb (truthy_media (Media event)) = true ->
  Js.truthy_opt_string (Body event) = false /\ Media event = None.
Proof.
  intros Hguard. apply andb_prop in Hguard. destruct Hguard as [Hb Hm].
  apply negb_true_iff in Hb, Hm. split; [assumption|].
  now destruct (Media event).
Qed.

(** Claim C6.  For an event whose Body is truthy or whose Media is truthy,
    [sendErrorMessageForUnsupportedMedia] returns at once and leaves the
    world as it was: no call to any service, no message.  A conversation
    message is created only when Body is absent or empty and Media is
    absent. *)
Theorem valid_message_untouched context event (w : World Env) :
  (Js.truthy_opt_string (Body event) = true \/ truthy_media (Media event) = true ->
   sendErrorMessageForUnsupportedMedia context event w = (Returned tt, w))
  /\ (forall new conversation options,
        issues (sendErrorMessageForUnsupportedMedia context event) w new ->
        In (MessageCreate conversation options) new ->
        (Body event = None \/ Body event = Some EmptyString) /\ Media event = None).
Proof.
  split.
  - intros Hvalid. apply guard_false.
    destruct Hvalid as [-> | ->]; [reflexivity | apply andb_false_r].
  - intros new conversation options Hnew Hin. unfold issues in Hnew.
    destruct (negb (Js.truthy_opt_string (Body event))
              && negb (truthy_media (Media event))) eqn:Hguard.
    + apply guard_true in Hguard. destruct Hguard as [Hbody Hmedia].
      split; [|assumption].
      destruct (Body event) as [text|]; [right | now left].
      unfold Js.truthy_opt_string, Js.truthy_string in Hbody.
      apply negb_false_iff, String.eqb_eq in Hbody. now subst text.
    + rewrite (guard_false _ _ _ Hguard) in Hnew. cbn in Hnew.
      apply app_same_nil in Hnew. now subst new.
Qed.

(** Claim C10.  Any message [sendErrorMessageForUnsupportedMedia] creates
    has a truthy, hence non-empty, text.  Once the configuration is read,
    the message is created whatever happens to the translation download; its
    text is the translated value when the download succeeds and yields a
    truthy value under 'UnsupportedMediaErrorMsg', and the fallback
    'Unsupported message type.' otherwise. *)
Theorem error_message_text context event (w : World Env) :
  (forall new conversation options,
      issues (sendErrorMessageForUnsupportedMedia context event) w new ->
      In (MessageCreate conversation options) new ->
      Js.truthy (body options) = true /\ body options <> Js.str EmptyString)
  /\ (forall config env1 language,
        Js.truthy_opt_string (Body event) = false ->
        Media event = None ->
        flex_configuration_fetch (remote w) = (inr config, env1) ->
        Js.get (configAttributes config) "helplineLanguage" = inr language ->
        let helplineLanguage := Js.nullish language (Js.str "en-US") in
        exists text,
          issues (sendErrorMessageForUnsupportedMedia context event) w
            (FlexConfigurationFetch
             :: (if Js.truthy helplineLanguage
                 then [HttpFetch (translationAddress context helplineLanguage)]
                 else [])
             ++ [MessageCreate (ConversationSid event)
                   {| body := text; author := "Bot";
                      xTwilioWebhookEnabled := "true";
                      messageAttributes := None |}])
          /\ (forall translated,
                translationYields context helplineLanguage env1 translated ->
                text = translated)
          /\ ((forall translated,
                 ~ translationYields context helplineLanguage env1 translated) ->
              text = Js.str FALLBACK_ERROR_MESSAGE)).
Proof.
  assert (Hsent : forall config env1 language,
        Js.truthy_opt_string (Body event) = false ->
        Media event = None ->
        flex_configuration_fetch (remote w) = (inr config, env1) ->
        Js.get (configAttributes config) "helplineLanguage" = inr language ->
        let helplineLanguage := Js.nullish language (Js.str "en-US") in
        exists text,
          Js.truthy text = true
          /\ issues (sendErrorMessageForUnsupportedMedia context event) w
            (FlexConfigurationFetch
             :: (if Js.truthy helplineLanguage
                 then [HttpFetch (translationAddress context helplineLanguage)]
                 else [])
             ++ [MessageCreate (ConversationSid event)
                   {| body := text; author := "Bot";
                      xTwilioWebhookEnabled := "true";
                      messageAttributes := None |}])
          /\ (forall translated,
                translationYields context helplineLanguage env1 translated ->
                text = translated)
          /\ ((forall translated,
                 ~ translationYields context helplineLanguage env1 translated) ->
              text = Js.str FALLBACK_ERROR_MESSAGE)).
  { intros config env1 language Hbody Hmedia Hconfig Hlang helplineLanguage.
    destruct (error_branch context event w config env1 language
                Hbody Hmedia Hconfig Hlang)
      as (text & w1 & Hrun & Hcalls & Htruthy & Hyes & Hno).
    exists text. split; [assumption|]. split; [|split; assumption].
    unfold issues. rewrite Hrun, send_message_calls, Hcalls.
    cbn [Js.truthy_opt_string]. now rewrite <- app_assoc. }
  split.
  - intros new conversation options Hnew Hin.
    assert (Js.truthy (body options) = true) as Htruthy;
      [|split; [assumption | intros Hempty; now rewrite Hempty in Htruthy]].
    destruct (negb (Js.truthy_opt_string (Body event))
              && negb (truthy_media (Media event))) eqn:Hguard.
    2:{ unfold issues in Hnew. rewrite (guard_false _ _ _ Hguard) in Hnew.
        cbn in Hnew. apply app_same_nil in Hnew. now subst new. }
    apply guard_true in Hguard. destruct Hguard as [Hbody Hmedia].
    destruct (flex_configuration_fetch (remote w)) as [[e|config] env1] eqn:Hconfig.
    { unfold issues, sendErrorMessageForUnsupportedMedia in Hnew.
      rewrite Hbody, Hmedia in Hnew. cbn [negb truthy_media andb] in Hnew.
      cbv zeta in Hnew. rewrite (bind_await _ _ _ _ _ _ Hconfig) in Hnew.
      cbn in Hnew. apply app_inv_head in Hnew. subst new.
      destruct Hin as [Hin|[]]. discriminate. }
    destruct (Js.get (configAttributes config) "helplineLanguage")
      as [e|language] eqn:Hlang.
    { unfold issues, sendErrorMessageForUnsupportedMedia in Hnew.
      rewrite Hbody, Hmedia in Hnew. cbn [negb truthy_media andb] in Hnew.
      cbv zeta in Hnew. rewrite (bind_await _ _ _ _ _ _ Hconfig) in Hnew.
      rewrite Hlang in Hnew. cbn [lift] in Hnew. rewrite bind_throw in Hnew.
      cbn in Hnew. apply app_inv_head in Hnew. subst new.
      destruct Hin as [Hin|[]]. discriminate. }
    destruct (Hsent config env1 language Hbody Hmedia eq_refl Hlang)
      as (text & Htruthy & Hcalls & _).
    unfold issues in *. rewrite Hcalls in Hnew. apply app_inv_head in Hnew.
    subst new. destruct Hin as [Hin|Hin]; [discriminate|].
    apply in_app_or in Hin. destruct Hin as [Hin|[Hin|[]]].
    + destruct (Js.truthy _); [destruct Hin as [Hin|[]]; discriminate | destruct Hin].
    + injection Hin as _ <-. exact Htruthy.
  - intros config env1 language Hbody Hmedia Hconfig Hlang helplineLanguage.
    destruct (Hsent config env1 language Hbody Hmedia Hconfig Hlang)
      as (text & _ & Hrest).
    exists text. exact Hrest.
Qed.

End MediaClaims.

(** ** The statements at work on the concrete platform *)

Section Witnesses.
#[local] Existing Instance Demo.platform.
Import AdjustChatCapacity.

Lemma demo_update_sets_capacity : update_sets_capacity.
Proof.
  intros channel n env updated env' Hup. cbn in Hup.
  injection Hup as <- _. reflexivity.
Defined.

Lemma demo_located capacity available :
  located Demo.context "WK1" (boot (Demo.chat capacity available)) 3
          (Demo.chat capacity available)
          (Demo.found (Demo.chat capacity available)).
Proof.
  unfold located.
  exists {| workerSid_of := "WK1"; attributes := Demo.attributes3 |},
         (Demo.chat capacity available),
         (Js.object [("maxMessageCapacity", Js.number 3)]),
         (Js.number 3),
         [Demo.chat capacity available],
         (Demo.chat capacity available).
  repeat split; try reflexivity. discriminate.
Defined.

Lemma increase_loop_terminates_witness :
  update_sets_capacity
  /\ bounded (Js.Num 3)
  /\ fst (increaseLoop 4 (Js.Num 3) {| status := 200; message := EmptyString |}
            (Demo.chat 1 0) (boot (Demo.chat 1 0))) <> OutOfFuel
  /\ increaseLoop 10 (Js.Num 3) {| status := 200; message := EmptyString |}
       (Demo.chat 1 0) (boot (Demo.chat 1 0))
     = increaseLoop 4 (Js.Num 3) {| status := 200; message := EmptyString |}
         (Demo.chat 1 0) (boot (Demo.chat 1 0)).
Proof.
  assert (Hmax : bounded (Js.Num 3)) by (vm_compute; discriminate).
  split; [exact demo_update_sets_capacity|]. split; [exact Hmax|].
  destruct (increase_loop_terminates demo_update_sets_capacity (Js.Num 3) Hmax)
    as (_ & Hloop & _).
  apply (Hloop (Demo.chat 1 0) (boot (Demo.chat 1 0)) 10%nat).
  - vm_compute. discriminate.
  - cbn. lia.
Defined.

(** At 2^53 the sum [configuredCapacity + 1] is 2^53 again: with the
    ceiling two above, every pass asks for the capacity the channel already
    has and answers 200, so the loop never ends although each update
    returns the capacity it was asked for. *)
Lemma stuck_at_limit fuel : forall result (w : World Channel),
  status result = 200 ->
  remote w = Demo.chat Js.limit 0 ->
  fst (increaseLoop fuel (Js.Num (Js.limit + 2)) result (Demo.chat Js.limit 0) w)
  = OutOfFuel.
Proof.
  induction fuel as [|fuel IH]; intros result w Hs Hw; [reflexivity|].
  cbn [increaseLoop]. rewrite Hs. cbn [Z.eqb Pos.eqb]. unfold bind.
  rewrite (increase_updates (Demo.chat Js.limit 0) (Js.Num (Js.limit + 2)) w
             (inr (Demo.chat Js.limit 0)) (Demo.chat Js.limit 0)).
  - apply IH; reflexivity.
  - cbn. lia.
  - vm_compute. reflexivity.
  - rewrite Hw. vm_compute. reflexivity.
Qed.

Lemma increase_loop_terminates_counterexample :
  update_sets_capacity
  /\ (forall fuel,
        fst (increaseLoop fuel (Js.Num (Js.limit + 2))
               {| status := 200; message := EmptyString |}
               (Demo.chat Js.limit 0) (boot (Demo.chat Js.limit 0)))
        = OutOfFuel)
  /\ increaseChatCapacity (Demo.chat Js.limit 0) (Js.Num (Js.limit + 2))
       (boot (Demo.chat Js.limit 0))
     = (Returned {| result := {| status := 200;
                                 message := "Successfully increased channel capacity" |};
                    updatedChannel := Demo.chat Js.limit 0 |},
        advance (boot (Demo.chat Js.limit 0)) (Demo.chat Js.limit 0)
                [ChannelUpdate (Demo.chat Js.limit 0) Js.limit]).
Proof.
  split; [exact demo_update_sets_capacity|]. split.
  - intros fuel. now apply stuck_at_limit.
  - vm_compute. reflexivity.
Qed.

Lemma increase_adjustment_witness :
  located Demo.context "WK1" (boot (Demo.chat 1 0)) 3 (Demo.chat 1 0)
          (Demo.found (Demo.chat 1 0))
  /\ adjustChatCapacity 0 Demo.context
       {| validWorkerSid := "WK1"; validAdjustment := "increase" |}
       (boot (Demo.chat 1 0))
     = (Returned {| status := 200;
                    message := "Successfully increased channel capacity" |},
        advance (Demo.found (Demo.chat 1 0)) (Demo.chat 2 0)
                [ChannelUpdate (Demo.chat 1 0) 2]).
Proof.
  split; [exact (demo_located 1 0)|].
  destruct (increase_adjustment 0%nat _ _ _ _ _ _ (demo_located 1 0))
    as (_ & _ & Hup & _).
  apply (Hup ltac:(cbn; lia) ltac:(cbn; lia) (inr (Demo.chat 2 0)) (Demo.chat 2 0)).
  reflexivity.
Defined.

Lemma setTo1_adjustment_witness :
  located Demo.context "WK1" (boot (Demo.chat 3 0)) 3 (Demo.chat 3 0)
          (Demo.found (Demo.chat 3 0))
  /\ adjustChatCapacity 0 Demo.context
       {| validWorkerSid := "WK1"; validAdjustment := "setTo1" |}
       (boot (Demo.chat 3 0))
     = (Returned {| status := 200;
                    message := "Successfully reset channel capacity to 1" |},
        advance (Demo.found (Demo.chat 3 0)) (Demo.chat 2 0)
                [ChannelUpdate (Demo.chat 3 0) 2]).
Proof.
  split; [exact (demo_located 3 0)|].
  destruct (setTo1_adjustment 0%nat _ _ _ _ _ _ (demo_located 3 0)) as (Hup & _).
  apply (Hup ltac:(cbn; lia) (inr (Demo.chat 2 0)) (Demo.chat 2 0)).
  reflexivity.
Defined.

Lemma decrease_adjustment_witness :
  located Demo.context "WK1" (boot (Demo.chat 1 0)) 3 (Demo.chat 1 0)
          (Demo.found (Demo.chat 1 0))
  /\ adjustChatCapacity 0 Demo.context
       {| validWorkerSid := "WK1"; validAdjustment := "decrease" |}
       (boot (Demo.chat 1 0))
     = (Returned {| status := 200;
                    message := "Successfully decreased channel capacity" |},
        Demo.found (Demo.chat 1 0)).
Proof.
  split; [exact (demo_located 1 0)|].
  destruct (decrease_adjustment 0%nat _ _ _ _ _ _ (demo_located 1 0))
    as (_ & Hkeep & _).
  apply Hkeep. cbn. lia.
Defined.

Lemma handler_validates_witness :
  handler 0 Demo.context
    {| workerSid := None; adjustment := Some "increase"; Token := Some "token" |}
    (boot (Demo.chat 1 0))
  = (Returned tt,
     {| remote := Demo.chat 1 0; calls := [TokenCheck (Some "token")];
        resolved := [error400 "workerSid"] |}).
Proof.
  destruct (handler_validates (H := Demo.platform) 0%nat Demo.context
              {| workerSid := None; adjustment := Some "increase";
                 Token := Some "token" |}
              (boot (Demo.chat 1 0)) (inr tt) (Demo.chat 1 0) eq_refl)
    as (_ & Hpass).
  destruct (Hpass tt eq_refl) as (Hmissing & _).
  apply Hmissing. reflexivity.
Defined.

(** An event without [workerSid] that the token check refuses is answered
    by the wrapper, not with [error400]. *)
Lemma handler_validates_counterexample :
  workerSid {| workerSid := None; adjustment := None; Token := None |} = None
  /\ resolved (snd (handler (H := Scripted.platform) 0 Demo.context
                      {| workerSid := None; adjustment := None; Token := None |}
                      (boot Scripted.outage)))
     = [error403 "Unauthorized"]
  /\ ~ In (error400 "workerSid")
          (resolved (snd (handler (H := Scripted.platform) 0 Demo.context
                            {| workerSid := None; adjustment := None; Token := None |}
                            (boot Scripted.outage)))).
Proof.
  split; [reflexivity|]. split; [reflexivity|].
  cbn. intros [Hin|[]]. discriminate.
Qed.

Lemma task_control_witness :
  fst (TransferHelpers.hasTaskControl "WS1" "WT1" (Some (Demo.transferred "WT1"))
         (boot (Demo.chat 1 0)))
  = Returned true.
Proof.
  destruct (task_control "WS1" "WT1" (boot (Demo.chat 1 0))) as (_ & _ & Hfetch).
  destruct (Hfetch (Demo.transferred "WT1") (Demo.control "WT1")
              {| sid := "WT1" |} (Demo.chat 1 0) eq_refl eq_refl)
    as (answer & Hrun & Hiff).
  rewrite Hrun. cbn [fst]. f_equal. apply Hiff. reflexivity.
Defined.

Lemma safernet_signature_witness :
  let request :=
    SaveContactToSaferNet.saferNetRequest Demo.saferNet
      (hmac_sha256_hex "secret" "{}") (Js.object []) in
  issues (SaveContactToSaferNet.handler Demo.saferNet (Demo.contact "{}"))
         (boot (Demo.chat 1 0)) [AxiosCall request]
  /\ headers request = [ ("Content-Type", "application/json");
                         ("X-Signature", "sha256=secret:{}") ].
Proof.
  intros request. split; [reflexivity|].
  destruct (safernet_signature Demo.saferNet (Demo.contact "{}") (boot (Demo.chat 1 0)))
    as (Hshape & _).
  destruct (Hshape [AxiosCall request] request eq_refl (or_introl eq_refl))
    as (encoded & Hencoded & _ & _ & _ & Hheaders).
  cbn in Hencoded. injection Hencoded as <-. exact Hheaders.
Defined.

Lemma safernet_outcomes_witness :
  SaveContactToSaferNet.isValidRequest Demo.saferNet (Demo.contact "{}")
    (boot (Demo.chat 1 0)) = (Returned true, boot (Demo.chat 1 0))
  /\ resolves (SaveContactToSaferNet.handler Demo.saferNet (Demo.contact "{}"))
              (boot (Demo.chat 1 0))
              [success (Js.str "https://survey.example/1")].
Proof.
  split; [reflexivity|].
  destruct (safernet_outcomes Demo.saferNet (Demo.contact "{}")
              (boot (Demo.chat 1 0)) (boot (Demo.chat 1 0))
              ltac:(discriminate) ltac:(discriminate) ltac:(discriminate) eq_refl)
    as (_ & Hresponse & _).
  destruct (Hresponse "{}" (Js.object []) {| responseData := Demo.surveyReply |}
              (Demo.chat 1 0) (Js.boolean true) eq_refl eq_refl eq_refl eq_refl)
    as (Hyes & _).
  destruct (Hyes eq_refl) as (link & Hlink & Hresolves).
  cbn in Hlink. injection Hlink as <-. exact Hresolves.
Defined.

Lemma valid_message_untouched_witness :
  UnsupportedMedia.sendErrorMessageForUnsupportedMedia Demo.domain Demo.textMessage
    (boot (Demo.chat 1 0))
  = (Returned tt, boot (Demo.chat 1 0)).
Proof.
  destruct (valid_message_untouched Demo.domain Demo.textMessage (boot (Demo.chat 1 0)))
    as (Hquiet & _).
  apply Hquiet. left. reflexivity.
Defined.

Lemma error_message_text_witness :
  issues (UnsupportedMedia.sendErrorMessageForUnsupportedMedia Demo.domain
            Demo.emptyMessage)
         (boot (Demo.chat 1 0))
         [ FlexConfigurationFetch;
           HttpFetch "https://helpline.example/translations/pt-BR/messages.json";
           MessageCreate "CH1"
             {| body := Js.str "Tipo de mensagem incompativel.";
                author := "Bot";
                xTwilioWebhookEnabled := "true";
                messageAttributes := None |} ].
Proof.
  destruct (error_message_text Demo.domain Demo.emptyMessage (boot (Demo.chat 1 0)))
    as (_ & Hsent).
  destruct (Hsent
              {| configAttributes := Js.object [("helplineLanguage", Js.str "pt-BR")] |}
              (Demo.chat 1 0) (Js.str "pt-BR") eq_refl eq_refl eq_refl eq_refl)
    as (text & Hissues & Hyes & _).
  rewrite (Hyes (Js.str "Tipo de mensagem incompativel.")) in Hissues.
  - exact Hissues.
  - split; [reflexivity|].
    exists {| json := inr Demo.translations |}, (Demo.chat 1 0), Demo.translations.
    repeat split.
Defined.

End Witnesses.

(** ** Capacity adjustment: lookups that fail *)

Section LookupFailures.
Context {Env : Type} `{Platform Env}.
Import AdjustChatCapacity.

(** Property X1.  When the worker fetch yields no worker,
    [adjustChatCapacity] answers 404 "Could not find worker." having issued
    the worker fetch and nothing else, whatever the adjustment. *)
Theorem adjust_worker_missing fuel context body (w : World Env) env1 :
  worker_fetch (TWILIO_WORKSPACE_SID context) (validWorkerSid body) (remote w)
  = (inr None, env1) ->
  adjustChatCapacity fuel context body w
  = (Returned {| status := 404; message := "Could not find worker." |},
     advance w env1 [WorkerFetch (TWILIO_WORKSPACE_SID context) (validWorkerSid body)]).
Proof.
  intros Hfetch. unfold adjustChatCapacity.
  now rewrite (bind_await _ _ _ _ _ _ Hfetch).
Qed.

(** Property X2.  When the worker's [maxMessageCapacity] attribute parses
    to NaN or to 0, [adjustChatCapacity] answers 409 with a message naming
    the worker; the channels are never listed and nothing is updated. *)
Theorem adjust_capacity_unusable fuel context body (w : World Env)
    worker env1 attrs raw :
  worker_fetch (TWILIO_WORKSPACE_SID context) (validWorkerSid body) (remote w)
  = (inr (Some worker), env1) ->
  JSON_parse (attributes worker) = inr attrs ->
  Js.get attrs "maxMessageCapacity" = inr raw ->
  parseInt10 raw = Js.NaN \/ parseInt10 raw = Js.Num 0 ->
  adjustChatCapacity fuel context body w
  = (Returned {| status := 409;
                 message := "Worker " ++ validWorkerSid body ++ " does not have a "
                            ++ dquote ++ "maxMessageCapacity" ++ dquote
                            ++ " attribute, can't adjust capacity." |},
     advance w env1 [WorkerFetch (TWILIO_WORKSPACE_SID context) (validWorkerSid body)]).
Proof.
  intros Hfetch Hparse Hget Hnan. unfold adjustChatCapacity.
  rewrite (bind_await _ _ _ _ _ _ Hfetch), Hparse. cbn [lift]. rewrite bind_ret.
  rewrite Hget. cbn [lift]. rewrite bind_ret.
  now destruct Hnan as [-> | ->].
Qed.

(** Property X3.  When none of the worker's channels is named "chat",
    [adjustChatCapacity] answers 404 "Could not find chat channel." after
    the two lookups and updates nothing, whatever the adjustment. *)
Theorem adjust_chat_channel_missing fuel context body (w : World Env)
    worker env1 attrs raw max channels env2 :
  worker_fetch (TWILIO_WORKSPACE_SID context) (validWorkerSid body) (remote w)
  = (inr (Some worker), env1) ->
  JSON_parse (attributes worker) = inr attrs ->
  Js.get attrs "maxMessageCapacity" = inr raw ->
  parseInt10 raw = Js.Num max ->
  max <> 0 ->
  workerChannels_list worker env1 = (inr channels, env2) ->
  (forall c, In c channels -> taskChannelUniqueName c <> "chat") ->
  adjustChatCapacity fuel context body w
  = (Returned {| status := 404; message := "Could not find chat channel." |},
     advance w env2 [WorkerFetch (TWILIO_WORKSPACE_SID context) (validWorkerSid body);
                     WorkerChannelsList worker]).
Proof.
  intros Hfetch Hparse Hget Hint Hnz Hlist Hnone. unfold adjustChatCapacity.
  rewrite (bind_await _ _ _ _ _ _ Hfetch), Hparse. cbn [lift]. rewrite bind_ret.
  rewrite Hget. cbn [lift]. rewrite bind_ret. rewrite Hint. cbn [Js.falsy].
  destruct (Z.eqb_spec max 0); [contradiction|].
  rewrite (bind_await _ (workerChannels_list worker) _ (advance w env1 _) _ _ Hlist).
  rewrite advance_advance.
  destruct (find _ channels) as [c|] eqn:Hfind; [|reflexivity].
  apply find_some in Hfind. destruct Hfind as [Hin Hname].
  apply String.eqb_eq in Hname. now apply Hnone in Hin.
Qed.

(** Property X4.  After successful lookups, an adjustment other than
    'increase', 'increaseUntilCapacityAvailable', 'decrease' and 'setTo1'
    is answered 400 "Invalid adjustment argument" and updates nothing. *)
Theorem adjust_invalid_argument fuel context workerSid adjustment (w : World Env)
    max channel w2 :
  located context workerSid w max channel w2 ->
  adjustment <> "increase" ->
  adjustment <> "increaseUntilCapacityAvailable" ->
  adjustment <> "decrease" ->
  adjustment <> "setTo1" ->
  adjustChatCapacity fuel context
    {| validWorkerSid := workerSid; validAdjustment := adjustment |} w
  = (Returned {| status := 400; message := "Invalid adjustment argument" |}, w2).
Proof.
  intros Hloc H1 H2 H3 H4.
  rewrite (adjust_located _ _ _ _ _ _ _ _ Hloc).
  apply String.eqb_neq in H1, H2, H3, H4. now rewrite H1, H2, H3, H4.
Qed.

End LookupFailures.

(** ** Capacity adjustment: what the loop does *)

Section LoopFacts.
Context {Env : Type} `{Platform Env}.
Import AdjustChatCapacity.

Lemma advance_nil (w : World Env) : advance w (remote w) [] = w.
Proof. unfold advance. rewrite app_nil_r. now destruct w. Qed.

Lemma increase_frame channel max (w : World Env) :
  exists env' new,
    snd (increaseChatCapacity channel max w) = advance w env' new
    /\ Forall (cautious max) new.
Proof.
  destruct (Z.lt_ge_cases 0 (availableCapacityPercentage channel)) as [Hav|Hav].
  { rewrite increase_available by assumption.
    exists (remote w), []. now rewrite advance_nil. }
  destruct (Js.lt (Js.Num (configuredCapacity channel)) max) eqn:Hc.
  - destruct (channel_update channel (Js.succ (configuredCapacity channel)) (remote w))
      as [r env'] eqn:Hup.
    rewrite (increase_updates _ _ _ _ _ Hav Hc Hup).
    exists env'. eexists. split; [reflexivity|].
    constructor; [|constructor]. cbn. auto.
  - rewrite increase_at_max by assumption.
    exists (remote w), []. now rewrite advance_nil.
Qed.

Lemma loop_frame fuel max : forall result channel (w : World Env),
  exists env' new,
    snd (increaseLoop fuel max result channel w) = advance w env' new
    /\ Forall (cautious max) new.
Proof.
  induction fuel as [|fuel IH]; intros result channel w.
  - exists (remote w), []. cbn. now rewrite advance_nil.
  - cbn [increaseLoop]. destruct (status result =? 200).
    2:{ exists (remote w), []. cbn. now rewrite advance_nil. }
    destruct (increase_frame channel max w) as (env1 & new1 & Hw1 & Hnew1).
    unfold bind.
    destruct (increaseChatCapacity channel max w) as [[r|e|] w1]; cbn [snd] in Hw1;
      subst w1; try (exists env1, new1; now split).
    destruct (IH (AdjustChatCapacity.result r) (updatedChannel r) (advance w env1 new1))
      as (env2 & new2 & Hw2 & Hnew2).
    exists env2, (new1 ++ new2)%list. rewrite Hw2, advance_advance.
    split; [reflexivity|]. now apply Forall_app.
Qed.

(** How the loop can end. *)
Lemma loop_end fuel max : forall result channel (w : World Env) r final w',
  increaseLoop fuel max result channel w = (Returned (r, final), w') ->
  (status result <> 200 /\ r = result /\ final = channel /\ w' = w)
  \/ (status result = 200
      /\ r = {| status := 412;
                message := if 0 <? availableCapacityPercentage final
                           then "Still have available capacity, no need to increase."
                           else "Reached the max capacity." |}
      /\ (0 < availableCapacityPercentage final
          \/ Js.lt (Js.Num (configuredCapacity final)) max = false)).
Proof.
  induction fuel as [|fuel IH]; intros result channel w r final w' Hrun;
    [discriminate|].
  cbn [increaseLoop] in Hrun.
  destruct (Z.eqb_spec (status result) 200) as [Hs|Hs].
  2:{ injection Hrun as <- <- <-. now left. }
  right. split; [assumption|].
  unfold bind in Hrun.
  destruct (Z.lt_ge_cases 0 (availableCapacityPercentage channel)) as [Hav|Hav].
  { rewrite increase_available in Hrun by assumption. cbn in Hrun.
    apply IH in Hrun. destruct Hrun as [(_ & -> & -> & _) | (Habs & _)];
      [|discriminate].
    destruct (Z.ltb_spec 0 (availableCapacityPercentage channel)); [|lia].
    split; [reflexivity | now left]. }
  destruct (Js.lt (Js.Num (configuredCapacity channel)) max) eqn:Hc.
  - destruct (channel_update channel (Js.succ (configuredCapacity channel)) (remote w))
      as [u env'] eqn:Hup.
    rewrite (increase_updates _ _ _ _ _ Hav Hc Hup) in Hrun.
    destruct u as [e|updated]; [discriminate|]. cbn in Hrun.
    apply IH in Hrun. destruct Hrun as [(Habs & _) | (_ & Hr & Hfinal)].
    + now contradiction Habs.
    + now split.
  - rewrite increase_at_max in Hrun by assumption. cbn in Hrun.
    apply IH in Hrun. destruct Hrun as [(_ & -> & -> & _) | (Habs & _)];
      [|discriminate].
    destruct (Z.ltb_spec 0 (availableCapacityPercentage channel)); [lia|].
    split; [reflexivity | now right].
Qed.

End LoopFacts.



Create HintDb framed.

Section Framed.
Context {Env : Type}.

Lemma framed_ret {A} (a : A) : framed (@ret Env A a).
Proof. intros w. exists (remote w), []. cbn. unfold advance. rewrite app_nil_r. now destruct w. Qed.

Lemma framed_throw {A} e : framed (@throw Env A e).
Proof. intros w. exists (remote w), []. cbn. unfold advance. rewrite app_nil_r. now destruct w. Qed.

Lemma framed_diverge {A} : framed (@diverge Env A).
Proof. intros w. exists (remote w), []. cbn. unfold advance. rewrite app_nil_r. now destruct w. Qed.

Lemma framed_lift {A} (r : Js.thrown + A) : framed (@lift Env A r).
Proof. destruct r; [apply framed_throw | apply framed_ret]. Qed.

Lemma framed_await {A} c (f : Env -> (Js.thrown + A) * Env) : framed (await c f).
Proof.
  intros w. destruct (f (remote w)) as [r env'] eqn:Hf.
  rewrite (await_settled _ _ _ _ _ Hf). now exists env', [c].
Qed.

Lemma framed_bind {A B} (m : M Env A) (k : A -> M Env B) :
  framed m -> (forall a, framed (k a)) -> framed (bind m k).
Proof.
  intros Hm Hk w. destruct (Hm w) as (env1 & new1 & Hw1). unfold bind.
  destruct (m w) as [[a|e|] w1]; cbn [snd] in Hw1; subst w1;
    try (now exists env1, new1).
  destruct (Hk a (advance w env1 new1)) as (env2 & new2 & Hw2).
  exists env2, (new1 ++ new2)%list. now rewrite Hw2, advance_advance.
Qed.

Lemma framed_try_catch {A} (m : M Env A) (handle : Js.thrown -> M Env A) :
  framed m -> (forall e, framed (handle e)) -> framed (try_catch m handle).
Proof.
  intros Hm Hh w. destruct (Hm w) as (env1 & new1 & Hw1). unfold try_catch.
  destruct (m w) as [[a|e|] w1]; cbn [snd] in Hw1; subst w1;
    try (now exists env1, new1).
  destruct (Hh e (advance w env1 new1)) as (env2 & new2 & Hw2).
  exists env2, (new1 ++ new2)%list. now rewrite Hw2, advance_advance.
Qed.

End Framed.

#[local] Hint Resolve framed_ret framed_throw framed_diverge framed_lift
  framed_await framed_bind framed_try_catch : framed.

Section AdjustFramed.
Context {Env : Type} `{Platform Env}.
Import AdjustChatCapacity.

Lemma framed_increase channel max : framed (increaseChatCapacity channel max).
Proof.
  unfold increaseChatCapacity.
  destruct (0 <? _); [auto with framed|].
  destruct (negb _); auto with framed.
Qed.

Lemma framed_loop fuel max : forall result channel,
  framed (increaseLoop fuel max result channel).
Proof.
  induction fuel as [|fuel IH]; intros result channel; cbn [increaseLoop];
    [auto with framed|].
  destruct (status result =? 200); [|auto with framed].
  apply framed_bind; [apply framed_increase | intros r; apply IH].
Qed.

Lemma framed_adjust fuel context body : framed (adjustChatCapacity fuel context body).
Proof.
  unfold adjustChatCapacity.
  apply framed_bind; [auto with framed|]. intros [worker|]; [|auto with framed].
  apply framed_bind; [auto with framed|]. intros attrs.
  apply framed_bind; [auto with framed|]. intros raw.
  destruct (Js.falsy _); [auto with framed|].
  apply framed_bind; [auto with framed|]. intros channels.
  destruct (find _ channels) as [channel|]; [|auto with framed].
  destruct (_ =? "increase")%string.
  { apply framed_bind; [apply framed_increase | auto with framed]. }
  destruct (_ =? "increaseUntilCapacityAvailable")%string.
  { apply framed_bind; [apply framed_loop|]. intros looped.
    destruct (_ && _); auto with framed. }
  destruct (_ =? "decrease")%string.
  { apply framed_bind; [|auto with framed].
    destruct (1 <=? _); auto with framed. }
  destruct (_ =? "setTo1")%string; [|auto with framed].
  destruct (negb _); auto with framed.
Qed.

End AdjustFramed.

Section IncreaseFacts.
Context {Env : Type} `{Platform Env}.
Import AdjustChatCapacity.

Lemma loop_unfold fuel max result channel :
  increaseLoop (S fuel) max result channel
  = if status result =? 200 then
      bind (increaseChatCapacity channel max)
           (fun r => increaseLoop fuel max (AdjustChatCapacity.result r)
                                  (updatedChannel r))
    else ret (result, channel).
Proof. reflexivity. Qed.

(** Property X5.  In both increase modes, after the lookups the only calls
    issued are channel updates, each one on a channel that reports no
    available capacity and is below [maxMessageCapacity], asking for the
    code's [configuredCapacity + 1]; for a channel between -2^53 and 2^53
    that is exactly one more, and never more than [maxMessageCapacity]. *)
Theorem increase_requests_bounded fuel context workerSid adjustment
    (w : World Env) max channel w2 :
  located context workerSid w max channel w2 ->
  adjustment = "increase" \/ adjustment = "increaseUntilCapacityAvailable" ->
  forall new,
    calls (snd (adjustChatCapacity fuel context
                  {| validWorkerSid := workerSid; validAdjustment := adjustment |} w))
    = (calls w2 ++ new)%list ->
    forall call, In call new ->
      exists c n,
        call = ChannelUpdate c n
        /\ availableCapacityPercentage c <= 0
        /\ configuredCapacity c < max
        /\ n = Js.succ (configuredCapacity c)
        /\ (- Js.limit <= configuredCapacity c < Js.limit ->
            n = configuredCapacity c + 1 /\ n <= max).
Proof.
  intros Hloc Hadj new Hnew call Hin.
  rewrite (adjust_located _ _ _ _ _ _ _ _ Hloc) in Hnew.
  assert (Hall : Forall (cautious (Js.Num max)) new).
  { destruct Hadj as [-> | ->]; cbn [String.eqb Ascii.eqb Bool.eqb] in Hnew.
    - destruct (increase_frame channel (Js.Num max) w2)
        as (env' & new' & Hw & Hcautious).
      unfold bind in Hnew.
      destruct (increaseChatCapacity channel (Js.Num max) w2) as [[r|e|] w'];
        cbn in Hw, Hnew; subst w'; cbn in Hnew; apply app_inv_head in Hnew;
        now subst new'.
    - destruct (loop_frame fuel (Js.Num max)
                  {| status := 200; message := EmptyString |} channel w2)
        as (env' & new' & Hw & Hcautious).
      unfold bind in Hnew.
      destruct (increaseLoop fuel (Js.Num max) _ channel w2) as [[r|e|] w'];
        cbn [snd] in Hw; subst w'; [destruct (_ && _) in Hnew| |];
        cbn in Hnew; apply app_inv_head in Hnew; now subst new'. }
  rewrite Forall_forall in Hall. specialize (Hall call Hin).
  destruct call as [| |c n| | | | | | |]; try contradiction.
  destruct Hall as (Hav & Hn & Hlt). apply Z.ltb_lt in Hlt.
  exists c, n. repeat split; try assumption.
  - rewrite Hn. now apply succ_exact.
  - rewrite Hn, succ_exact by assumption. lia.
Qed.

(** Property X6.  Whenever the increaseUntilCapacityAvailable loop ends
    normally, the last status is 412 and the channel it leaves either
    reports available capacity or has reached [maxMessageCapacity]. *)
Theorem increase_loop_exit fuel max channel (w : World Env) r final w' :
  increaseLoop fuel (Js.Num max) {| status := 200; message := EmptyString |} channel w
  = (Returned (r, final), w') ->
  status r = 412
  /\ (0 < availableCapacityPercentage final \/ max <= configuredCapacity final).
Proof.
  intros Hrun. apply loop_end in Hrun.
  destruct Hrun as [(Habs & _) | (_ & -> & Hfinal)]; [now contradiction Habs|].
  split; [reflexivity|].
  destruct Hfinal as [Hav|Hmax]; [now left | right].
  now apply Z.ltb_ge in Hmax.
Qed.

(** Property X7.  When the chat channel already reports available capacity
    or is already at or above [maxMessageCapacity],
    'increaseUntilCapacityAvailable' updates nothing; it answers 412 exactly
    when the capacity equals the maximum and the available percentage is 0,
    and 200 otherwise (so also for a channel above the maximum without
    available capacity). *)
Theorem increase_until_nothing_to_do fuel context workerSid (w : World Env)
    max channel w2 :
  located context workerSid w max channel w2 ->
  (2 <= fuel)%nat ->
  0 < availableCapacityPercentage channel \/ max <= configuredCapacity channel ->
  adjustChatCapacity fuel context
    {| validWorkerSid := workerSid;
       validAdjustment := "increaseUntilCapacityAvailable" |} w
  = (Returned
       (if (configuredCapacity channel =? max)
           && (availableCapacityPercentage channel =? 0)
        then {| status := 412;
                message := "Reached the max capacity with no available capacity." |}
        else {| status := 200;
                message := "Adjusted chat capacity until there is capacity available" |}),
     w2).
Proof.
  intros Hloc Hfuel Hdone.
  rewrite (adjust_located _ _ _ _ _ _ _ _ Hloc). cbn [String.eqb Ascii.eqb Bool.eqb].
  destruct fuel as [|[|fuel]]; [lia | lia |].
  unfold bind at 1. rewrite loop_unfold. cbn [status Z.eqb Pos.eqb]. unfold bind at 1.
  destruct (Z.lt_ge_cases 0 (availableCapacityPercentage channel)) as [Hav|Hav].
  - rewrite increase_available by assumption. cbn [result updatedChannel].
    rewrite loop_exit by (cbn; discriminate). cbn [snd].
    now destruct (_ && _).
  - destruct Hdone as [Hdone|Hdone]; [lia|].
    rewrite increase_at_max; [|assumption | apply Z.ltb_ge; assumption].
    cbn [result updatedChannel].
    rewrite loop_exit by (cbn; discriminate). cbn [snd].
    now destruct (_ && _).
Qed.

(** On a platform that stays busy the loop climbs to the ceiling. *)
Lemma loop_saturates (Hbusy : always_busy) max steps :
  forall result channel (w : World Env) fuel,
    status result = 200 ->
    availableCapacityPercentage channel = 0 ->
    - Js.limit <= configuredCapacity channel ->
    max <= Js.limit ->
    max - configuredCapacity channel = Z.of_nat steps ->
    (steps + 2 <= fuel)%nat ->
    exists final env' new,
      increaseLoop fuel (Js.Num max) result channel w
      = (Returned ({| status := 412; message := "Reached the max capacity." |}, final),
         advance w env' new)
      /\ configuredCapacity final = max
      /\ availableCapacityPercentage final = 0
      /\ length new = steps
      /\ capacityAfter (configuredCapacity channel) new = max.
Proof.
  induction steps as [|steps IH];
    intros result channel w fuel Hs Hav Hlow Hmax Hdist Hfuel.
  - destruct fuel as [|[|fuel]]; [lia | lia |].
    rewrite loop_unfold, Hs. cbn [Z.eqb Pos.eqb]. unfold bind.
    rewrite increase_at_max; [|lia | apply Z.ltb_ge; lia].
    cbn [AdjustChatCapacity.result updatedChannel].
    rewrite loop_exit by (cbn; discriminate).
    exists channel, (remote w), []. rewrite advance_nil.
    repeat split; cbn; try assumption; lia.
  - destruct fuel as [|fuel]; [lia|].
    rewrite loop_unfold, Hs. cbn [Z.eqb Pos.eqb]. unfold bind.
    destruct (Hbusy channel (Js.succ (configuredCapacity channel)) (remote w))
      as (updated & env1 & Hup & Hcap & Havu).
    assert (Hexact : Js.succ (configuredCapacity channel) = configuredCapacity channel + 1)
      by (apply succ_exact; lia).
    assert (Hlt : Js.lt (Js.Num (configuredCapacity channel)) (Js.Num max) = true)
      by (apply Z.ltb_lt; lia).
    rewrite (increase_updates channel (Js.Num max) w _ _ ltac:(lia) Hlt Hup).
    cbn [AdjustChatCapacity.result updatedChannel].
    destruct (IH {| status := 200; message := "Successfully increased channel capacity" |}
                 updated
                 (advance w env1 [ChannelUpdate channel (Js.succ (configuredCapacity channel))])
                 fuel eq_refl Havu ltac:(lia) Hmax ltac:(lia) ltac:(lia))
      as (final & env' & new & Hrun & Hfc & Hfa & Hlen & Hafter).
    rewrite Hrun, advance_advance.
    exists final, env'. eexists. split; [reflexivity|].
    repeat split; try assumption.
    + cbn. now rewrite Hlen.
    + cbn. now rewrite <- Hcap.
Qed.

(** Property X8.  On a platform where every update succeeds and the
    channel stays fully used, 'increaseUntilCapacityAvailable' from a fully
    used channel at or below the maximum, with both in the range where
    counting is exact (-2^53 to 2^53), issues exactly
    [maxMessageCapacity - configuredCapacity] updates, leaves the capacity
    at the maximum, and answers 412 "Reached the max capacity with no
    available capacity.". *)
Theorem increase_until_saturates fuel context workerSid (w : World Env)
    max channel w2 :
  always_busy ->
  located context workerSid w max channel w2 ->
  availableCapacityPercentage channel = 0 ->
  - Js.limit <= configuredCapacity channel ->
  configuredCapacity channel <= max ->
  max <= Js.limit ->
  (Z.to_nat (max - configuredCapacity channel) + 2 <= fuel)%nat ->
  exists env' new,
    adjustChatCapacity fuel context
      {| validWorkerSid := workerSid;
         validAdjustment := "increaseUntilCapacityAvailable" |} w
    = (Returned {| status := 412;
                   message := "Reached the max capacity with no available capacity." |},
       advance w2 env' new)
    /\ length new = Z.to_nat (max - configuredCapacity channel)
    /\ capacityAfter (configuredCapacity channel) new = max.
Proof.
  intros Hbusy Hloc Hav Hlow Hle Hmax Hfuel.
  rewrite (adjust_located _ _ _ _ _ _ _ _ Hloc). cbn [String.eqb Ascii.eqb Bool.eqb].
  destruct (loop_saturates Hbusy max (Z.to_nat (max - configuredCapacity channel))
              {| status := 200; message := EmptyString |} channel w2 fuel
              eq_refl Hav Hlow Hmax ltac:(lia) Hfuel)
    as (final & env' & new & Hrun & Hfc & Hfa & Hlen & Hafter).
  exists env', new. unfold bind. rewrite Hrun. cbn [snd].
  rewrite Hfc, Hfa, Z.eqb_refl. cbn. auto.
Qed.

End IncreaseFacts.

Section AdjustHandler.
Context {Env : Type} `{Platform Env}.
Import AdjustChatCapacity.

(** Property X9.  Under the precondition on [channel.update], and when the
    lookups made after the token check stay in the range where counting is
    exact, the exported handler of adjustChatCapacity never throws and,
    given enough fuel, always returns having handed exactly one response to
    the callback: the refusal of the wrapper, or the answer of the wrapped
    function. *)
Theorem handler_answers_once context event (w : World Env) :
  update_sets_capacity ->
  (forall verdict env' workerSid max channel w2,
      token_check (Token event) (remote w) = (verdict, env') ->
      located_at context workerSid (advance w env' [TokenCheck (Token event)])
                 max channel w2 ->
      bounded max /\ - Js.limit <= configuredCapacity channel) ->
  exists enough : nat,
    forall fuel, (enough <= fuel)%nat ->
      exists r w',
        handler fuel context event w = (Returned tt, w')
        /\ resolved w' = (resolved w ++ [r])%list.
Proof.
  intros Hupdate Hrange. unfold handler, TokenValidator.
  destruct (token_check (Token event) (remote w)) as [verdict env'] eqn:Hcheck.
  fold (advance w env' [TokenCheck (Token event)]).
  destruct verdict as [refusal|pass];
    [exists 0%nat; intros; do 2 eexists; split; reflexivity|].
  unfold validated, try_catch.
  destruct (workerSid event) as [worker|];
    [|exists 0%nat; intros; do 2 eexists; split; reflexivity].
  destruct (adjustment event) as [adjust|];
    [|exists 0%nat; intros; do 2 eexists; split; reflexivity].
  destruct (adjust_enough_fuel Hupdate context
              {| validWorkerSid := worker; validAdjustment := adjust |}
              (advance w env' [TokenCheck (Token event)]))
    as (enough & Hfin & Hsame).
  { intros max channel w2 Hloc. exact (Hrange _ _ _ _ _ _ eq_refl Hloc). }
  exists enough. intros fuel Hfuel.
  destruct (framed_adjust enough context
              {| validWorkerSid := worker; validAdjustment := adjust |}
              (advance w env' [TokenCheck (Token event)]))
    as (env2 & new & Hw).
  unfold bind. rewrite (Hsame fuel Hfuel).
  destruct (adjustChatCapacity enough context _ _) as [[r|e|] w1]; cbn [snd] in Hw;
    subst w1; [| | now contradiction Hfin];
    do 2 eexists; split; reflexivity.
Qed.

End AdjustHandler.

(** ** The SaferNet proxy: configuration and authorisation *)

Section SaferNetAccess.
Context {Env : Type} `{Platform Env}.
Import SaveContactToSaferNet.

(** Property X10.  The SaferNet handler throws, without calling anything
    and without answering the callback, when SAFERNET_ENDPOINT is empty;
    else when SAFERNET_TOKEN is empty; else when
    SAVE_PENDING_CONTACTS_STATIC_KEY is empty; each with its own message. *)
Theorem safernet_configuration_missing context event (w : World Env) :
  (SAFERNET_ENDPOINT context = EmptyString ->
   handler context event w
   = (Threw (Js.Error (Js.str "SAFERNET_ENDPOINT env var not provided.")), w))
  /\ (SAFERNET_ENDPOINT context <> EmptyString ->
      SAFERNET_TOKEN context = EmptyString ->
      handler context event w
      = (Threw (Js.Error (Js.str "SAFERNET_TOKEN env var not provided.")), w))
  /\ (SAFERNET_ENDPOINT context <> EmptyString ->
      SAFERNET_TOKEN context <> EmptyString ->
      SAVE_PENDING_CONTACTS_STATIC_KEY context = EmptyString ->
      handler context event w
      = (Threw (Js.Error
                  (Js.str "SAVE_PENDING_CONTACTS_STATIC_KEY env var not provided.")),
         w)).
Proof.
  unfold handler, Js.truthy_string. repeat split.
  - intros ->. reflexivity.
  - intros He ->. apply String.eqb_neq in He. now rewrite He.
  - intros He Ht ->. apply String.eqb_neq in He, Ht. now rewrite He, Ht.
Qed.

(** Property X11.  With a non-empty Token, [isValidRequest] is decided by
    the token validator alone (true when it resolves, false when it rejects,
    the rejection being swallowed); the ApiKey is not consulted, so a
    rejected token is refused even beside the right key. *)
Theorem token_decides context event (w : World Env) token r env' :
  Token event = Some token ->
  token <> EmptyString ->
  validateToken token (ACCOUNT_SID context) (AUTH_TOKEN context) (remote w) = (r, env') ->
  isValidRequest context event w
  = (Returned (match r with inr _ => true | inl _ => false end),
     advance w env' [ValidateToken token (ACCOUNT_SID context) (AUTH_TOKEN context)]).
Proof.
  intros Htoken Hne Hcheck. unfold isValidRequest. rewrite Htoken.
  cbn [Js.truthy_opt_string]. unfold Js.truthy_string.
  apply String.eqb_neq in Hne. rewrite Hne. cbn [negb].
  unfold try_catch. rewrite (bind_await _ _ _ _ _ _ Hcheck).
  now destruct r.
Qed.

(** Property X12.  Without a Token (absent or empty), [isValidRequest]
    calls nothing and answers true exactly when the ApiKey is present,
    non-empty and equal to SAVE_PENDING_CONTACTS_STATIC_KEY. *)
Theorem api_key_decides context event (w : World Env) :
  Token event = None \/ Token event = Some EmptyString ->
  exists answer,
    isValidRequest context event w = (Returned answer, w)
    /\ (answer = true <->
        exists key, ApiKey event = Some key
                    /\ key <> EmptyString
                    /\ key = SAVE_PENDING_CONTACTS_STATIC_KEY context).
Proof.
  intros Htoken. unfold isValidRequest.
  assert (Hfalsy : Js.truthy_opt_string (Token event) = false)
    by (destruct Htoken as [-> | ->]; reflexivity).
  rewrite Hfalsy. destruct (ApiKey event) as [key|]; cbn [Js.truthy_opt_string].
  - unfold Js.truthy_string. destruct (String.eqb_spec key EmptyString) as [Hk|Hk];
      cbn [negb].
    + exists false. split; [reflexivity|]. split; [discriminate|].
      intros (key' & Hsome & Hne & _). injection Hsome as <-. contradiction.
    + exists (key =? SAVE_PENDING_CONTACTS_STATIC_KEY context)%string.
      split; [reflexivity|]. rewrite String.eqb_eq. split.
      * intros Heq. exists key. auto.
      * intros (key' & Hsome & _ & Heq). now injection Hsome as <-.
  - exists false. split; [reflexivity|]. split; [discriminate|].
    intros (key & Hsome & _). discriminate.
Qed.

(** Property X13.  A request that [isValidRequest] refuses is answered
    with [error403 "No AccessToken or ApiKey was found"] as the only
    response, and no request is sent to SaferNet. *)
Theorem unauthorised_refused context event (w w1 : World Env) :
  SAFERNET_ENDPOINT context <> EmptyString ->
  SAFERNET_TOKEN context <> EmptyString ->
  SAVE_PENDING_CONTACTS_STATIC_KEY context <> EmptyString ->
  isValidRequest context event w = (Returned false, w1) ->
  handler context event w
  = (Returned tt,
     {| remote := remote w1; calls := calls w1;
        resolved := resolved w ++ [error403 "No AccessToken or ApiKey was found"] |})
  /\ exists checks,
       calls w1 = (calls w ++ checks)%list
       /\ forall request, ~ In (AxiosCall request) checks.
Proof.
  intros He Ht Hk Hvalid. rewrite (handler_valid _ _ _ He Ht Hk), Hvalid.
  destruct (isValidRequest_frame context event w) as (a & env' & cs & Hv & Hcs).
  rewrite Hv in Hvalid. injection Hvalid as _ <-. split; [reflexivity|].
  exists cs. split; [reflexivity|].
  intros request Hin. apply Hcs in Hin. destruct Hin as (t & k & s & Hin).
  discriminate.
Qed.

End SaferNetAccess.

(** ** The unsupported-media relay: sending and failing *)

Section MediaFacts.
Context {Env : Type} `{Platform Env}.
Import UnsupportedMedia.

(** Property X14.  [sendConversationMessage] issues exactly one
    [messages.create] with the given text and author and
    xTwilioWebhookEnabled 'true', and returns or throws as that call does;
    absent or empty message attributes are left out of the options, non-empty
    ones are passed through. *)
Theorem conversation_message_options conversation author text attrs (w : World Env) :
  let options kept :=
    {| body := text; author := author; xTwilioWebhookEnabled := "true";
       messageAttributes := kept |} in
  (attrs = None \/ attrs = Some EmptyString ->
   forall r env',
     messages_create conversation (options None) (remote w) = (r, env') ->
     sendConversationMessage conversation author text attrs w
     = (match r with inl e => Threw e | inr u => Returned u end,
        advance w env' [MessageCreate conversation (options None)]))
  /\ (forall value,
        attrs = Some value -> value <> EmptyString ->
        forall r env',
          messages_create conversation (options (Some value)) (remote w) = (r, env') ->
          sendConversationMessage conversation author text attrs w
          = (match r with inl e => Threw e | inr u => Returned u end,
             advance w env' [MessageCreate conversation (options (Some value))])).
Proof.
  intros options. split.
  - intros Hnone r env' Hcreate. unfold sendConversationMessage.
    assert (Hkept : (if Js.truthy_opt_string attrs then attrs else None) = None)
      by (destruct Hnone as [-> | ->]; reflexivity).
    rewrite Hkept. apply await_settled. exact Hcreate.
  - intros value -> Hne r env' Hcreate. unfold sendConversationMessage.
    cbn [Js.truthy_opt_string]. unfold Js.truthy_string.
    apply String.eqb_neq in Hne. rewrite Hne. cbn [negb].
    apply await_settled. exact Hcreate.
Qed.

Lemma configuration_failure_not_caught_aux context event (w : World Env) :
  Js.truthy_opt_string (Body event) = false ->
  Media event = None ->
  (forall e env1,
      flex_configuration_fetch (remote w) = (inl e, env1) ->
      sendErrorMessageForUnsupportedMedia context event w
      = (Threw e, advance w env1 [FlexConfigurationFetch]))
  /\ (forall config env1,
        flex_configuration_fetch (remote w) = (inr config, env1) ->
        configAttributes config = Js.null \/ configAttributes config = Js.undefined ->
        sendErrorMessageForUnsupportedMedia context event w
        = (Threw (Js.TypeError "helplineLanguage"),
           advance w env1 [FlexConfigurationFetch])).
Proof.
  intros Hbody Hmedia. unfold sendErrorMessageForUnsupportedMedia.
  rewrite Hbody, Hmedia. cbn [negb truthy_media andb]. cbv zeta. split.
  - intros e env1 Hfetch. now rewrite (bind_await _ _ _ _ _ _ Hfetch).
  - intros config env1 Hfetch Hnull. rewrite (bind_await _ _ _ _ _ _ Hfetch).
    now destruct Hnull as [-> | ->].
Qed.

(** Property X15.  Unlike a failed translation download, a failure to read
    the Flex configuration is not caught: when the configuration fetch
    rejects, or when its attributes are null or undefined,
    [sendErrorMessageForUnsupportedMedia] throws after that one call and
    sends no message. *)
Theorem configuration_failure_not_caught context event (w : World Env) :
  Js.truthy_opt_string (Body event) = false ->
  Media event = None ->
  (forall e env1,
      flex_configuration_fetch (remote w) = (inl e, env1) ->
      sendErrorMessageForUnsupportedMedia context event w
      = (Threw e, advance w env1 [FlexConfigurationFetch]))
  /\ (forall config env1,
        flex_configuration_fetch (remote w) = (inr config, env1) ->
        configAttributes config = Js.null \/ configAttributes config = Js.undefined ->
        sendErrorMessageForUnsupportedMedia context event w
        = (Threw (Js.TypeError "helplineLanguage"),
           advance w env1 [FlexConfigurationFetch])).
Proof.
  intros Hbody Hmedia. unfold sendErrorMessageForUnsupportedMedia.
  rewrite Hbody, Hmedia. cbn [negb truthy_media andb]. cbv zeta. split.
  - intros e env1 Hfetch. now rewrite (bind_await _ _ _ _ _ _ Hfetch).
  - intros config env1 Hfetch Hnull. rewrite (bind_await _ _ _ _ _ _ Hfetch).
    now destruct Hnull as [-> | ->].
Qed.

(** Property X16.  When the configuration has no [helplineLanguage]
    (undefined or null) the translation is downloaded for 'en-US'; when it
    holds a falsy value that is neither (such as the empty string) no
    download is attempted and the fallback text is sent. *)
Theorem helpline_language_default context event (w : World Env) config env1 language :
  Js.truthy_opt_string (Body event) = false ->
  Media event = None ->
  flex_configuration_fetch (remote w) = (inr config, env1) ->
  Js.get (configAttributes config) "helplineLanguage" = inr language ->
  let message text :=
    MessageCreate (ConversationSid event)
      {| body := text; author := "Bot"; xTwilioWebhookEnabled := "true";
         messageAttributes := None |} in
  (language = Js.undefined \/ language = Js.null ->
   exists text,
     issues (sendErrorMessageForUnsupportedMedia context event) w
       [FlexConfigurationFetch;
        HttpFetch (translationAddress context (Js.str "en-US"));
        message text])
  /\ (language <> Js.undefined -> language <> Js.null ->
      Js.truthy language = false ->
      issues (sendErrorMessageForUnsupportedMedia context event) w
        [FlexConfigurationFetch; message (Js.str FALLBACK_ERROR_MESSAGE)]).
Proof.
  intros Hbody Hmedia Hconfig Hlang message.
  destruct (error_branch context event w config env1 language
              Hbody Hmedia Hconfig Hlang)
    as (text & w1 & Hrun & Hcalls & _ & _ & Hno).
  cbv zeta in *. unfold issues. rewrite Hrun, send_message_calls, Hcalls.
  cbn [Js.truthy_opt_string]. split.
  - intros Hnullish. exists text.
    destruct Hnullish as [-> | ->]; cbn - [translationAddress];
      now rewrite <- app_assoc.
  - intros Hu Hn Hfalsy.
    assert (Hsame : Js.nullish language (Js.str "en-US") = language)
      by (destruct language; try reflexivity; contradiction).
    rewrite Hsame, Hfalsy in *. rewrite Hno.
    + now rewrite <- app_assoc.
    + intros translated (Htrue & _). congruence.
Qed.

(** Property X17.  Any message [sendErrorMessageForUnsupportedMedia]
    creates goes to the event's conversation, with author 'Bot',
    xTwilioWebhookEnabled 'true' and no attributes; it is the last call
    issued and the only message. *)
Theorem error_message_shape context event (w : World Env) new conversation options :
  issues (sendErrorMessageForUnsupportedMedia context event) w new ->
  In (MessageCreate conversation options) new ->
  conversation = ConversationSid event
  /\ author options = "Bot"
  /\ xTwilioWebhookEnabled options = "true"
  /\ messageAttributes options = None
  /\ exists before,
       new = (before ++ [MessageCreate conversation options])%list
       /\ forall c o, ~ In (MessageCreate c o) before.
Proof.
  intros Hnew Hin. unfold issues in Hnew.
  destruct (negb (Js.truthy_opt_string (Body event))
            && negb (truthy_media (Media event))) eqn:Hguard.
  2:{ rewrite (guard_false _ _ _ Hguard) in Hnew. cbn in Hnew.
      apply app_same_nil in Hnew. now subst new. }
  apply guard_true in Hguard. destruct Hguard as [Hbody Hmedia].
  destruct (flex_configuration_fetch (remote w)) as [[e|config] env1] eqn:Hconfig.
  { destruct (configuration_failure_not_caught_aux context event w Hbody Hmedia)
      as (Hfail & _).
    rewrite (Hfail e env1 Hconfig) in Hnew. cbn in Hnew.
    apply app_inv_head in Hnew. subst new. destruct Hin as [Hin|[]]. discriminate. }
  destruct (Js.get (configAttributes config) "helplineLanguage")
    as [e|language] eqn:Hlang.
  { destruct (configuration_failure_not_caught_aux context event w Hbody Hmedia)
      as (_ & Hfail).
    assert (Hnull : configAttributes config = Js.null
                    \/ configAttributes config = Js.undefined)
      by (destruct (configAttributes config); try discriminate; auto).
    rewrite (Hfail config env1 Hconfig Hnull) in Hnew. cbn in Hnew.
    apply app_inv_head in Hnew. subst new. destruct Hin as [Hin|[]]. discriminate. }
  destruct (error_branch context event w config env1 language
              Hbody Hmedia Hconfig Hlang)
    as (text & w1 & Hrun & Hcalls & _).
  cbv zeta in *. rewrite Hrun, send_message_calls, Hcalls in Hnew.
  rewrite <- app_assoc in Hnew. apply app_inv_head in Hnew. subst new.
  cbn [Js.truthy_opt_string] in *.
  assert (Hquiet : forall c o,
             ~ In (MessageCreate c o)
                  (FlexConfigurationFetch
                   :: (if Js.truthy (Js.nullish language (Js.str "en-US"))
                       then [HttpFetch (translationAddress context
                                          (Js.nullish language (Js.str "en-US")))]
                       else []))).
  { intros c o [Hc|Hc]; [discriminate|].
    destruct (Js.truthy _); [destruct Hc as [Hc|[]]; discriminate | destruct Hc]. }
  apply in_app_or in Hin. destruct Hin as [Hin|[Hin|[]]];
    [now apply Hquiet in Hin|].
  injection Hin as <- <-. repeat split; try reflexivity.
  eexists. split; [reflexivity | exact Hquiet].
Qed.

End MediaFacts.

(** ** The transfer helper: a failed fetch *)

Section TransferFacts.
Context {Env : Type} `{Platform Env}.
Import TransferHelpers.

(** Property X18.  When a transfer has started and the task fetch rejects,
    [hasTaskControl] throws that rejection after the one fetch: it answers
    neither true nor false. *)
Theorem task_fetch_failure_propagates workspaceSid taskSid attrs meta
    (w : World Env) e env' :
  transferMeta attrs = Some meta ->
  task_fetch workspaceSid taskSid (remote w) = (inl e, env') ->
  hasTaskControl workspaceSid taskSid (Some attrs) w
  = (Threw e, advance w env' [TaskFetch workspaceSid taskSid]).
Proof.
  intros Hmeta Hfetch. unfold hasTaskControl, hasTransferStarted.
  rewrite Hmeta. cbn [negb]. now rewrite (bind_await _ _ _ _ _ _ Hfetch).
Qed.

End TransferFacts.

Section Attributes.
Context {Env : Type} `{Platform Env}.
Import AdjustChatCapacity.

(** Property X19.  When the worker's attributes are not valid JSON,
    [adjustChatCapacity] throws the parse error, and when they parse to
    null it throws a TypeError, in both cases right after the worker fetch:
    the channels are never listed and nothing is updated. *)
Theorem adjust_attributes_unreadable fuel context body (w : World Env) worker env1 :
  worker_fetch (TWILIO_WORKSPACE_SID context) (validWorkerSid body) (remote w)
  = (inr (Some worker), env1) ->
  let fetched :=
    advance w env1 [WorkerFetch (TWILIO_WORKSPACE_SID context) (validWorkerSid body)] in
  (forall e, JSON_parse (attributes worker) = inl e ->
             adjustChatCapacity fuel context body w = (Threw e, fetched))
  /\ (JSON_parse (attributes worker) = inr Js.null ->
      adjustChatCapacity fuel context body w
      = (Threw (Js.TypeError "maxMessageCapacity"), fetched)).
Proof.
  intros Hfetch fetched. subst fetched. unfold adjustChatCapacity.
  rewrite (bind_await _ _ _ _ _ _ Hfetch). split.
  - intros e ->. reflexivity.
  - intros ->. reflexivity.
Qed.

End Attributes.

(** ** The further properties at work *)

Section MoreWitnesses.
Import AdjustChatCapacity.

Lemma adjust_worker_missing_witness :
  adjustChatCapacity (H := Scripted.platform) 0 Demo.context
    (Scripted.request "increase") (boot Scripted.outage)
  = (Returned {| status := 404; message := "Could not find worker." |},
     advance (boot Scripted.outage) Scripted.outage [WorkerFetch "WS1" "WK1"]).
Proof.
  apply (adjust_worker_missing (H := Scripted.platform)). reflexivity.
Defined.

Lemma adjust_capacity_unusable_witness :
  adjustChatCapacity (H := Scripted.platform) 0 Demo.context
    (Scripted.request "increase")
    (boot (Scripted.script "{}" [Demo.chat 1 0] Js.null))
  = (Returned {| status := 409;
                 message := "Worker WK1 does not have a "
                            ++ dquote ++ "maxMessageCapacity" ++ dquote
                            ++ " attribute, can't adjust capacity." |},
     advance (boot (Scripted.script "{}" [Demo.chat 1 0] Js.null))
             (Scripted.script "{}" [Demo.chat 1 0] Js.null)
             [WorkerFetch "WS1" "WK1"]).
Proof.
  apply (adjust_capacity_unusable (H := Scripted.platform) 0%nat Demo.context
           (Scripted.request "increase")
           (boot (Scripted.script "{}" [Demo.chat 1 0] Js.null))
           {| workerSid_of := "WK1"; attributes := "{}" |}
           (Scripted.script "{}" [Demo.chat 1 0] Js.null)
           (Js.object []) Js.undefined); try reflexivity.
  left. reflexivity.
Defined.

Lemma adjust_chat_channel_missing_witness :
  adjustChatCapacity (H := Scripted.platform) 0 Demo.context
    (Scripted.request "increase")
    (boot (Scripted.script Demo.attributes3 [Scripted.voice] Js.null))
  = (Returned {| status := 404; message := "Could not find chat channel." |},
     advance (boot (Scripted.script Demo.attributes3 [Scripted.voice] Js.null))
             (Scripted.script Demo.attributes3 [Scripted.voice] Js.null)
             [WorkerFetch "WS1" "WK1";
              WorkerChannelsList {| workerSid_of := "WK1";
                                    attributes := Demo.attributes3 |}]).
Proof.
  apply (adjust_chat_channel_missing (H := Scripted.platform) 0%nat Demo.context
           (Scripted.request "increase")
           (boot (Scripted.script Demo.attributes3 [Scripted.voice] Js.null))
           {| workerSid_of := "WK1"; attributes := Demo.attributes3 |}
           (Scripted.script Demo.attributes3 [Scripted.voice] Js.null)
           (Js.object [("maxMessageCapacity", Js.number 3)]) (Js.number 3) 3
           [Scripted.voice]
           (Scripted.script Demo.attributes3 [Scripted.voice] Js.null));
    try reflexivity.
  - discriminate.
  - intros c [<-|[]]. discriminate.
Defined.

Lemma adjust_attributes_unreadable_witness :
  adjustChatCapacity (H := Scripted.platform) 0 Demo.context
    (Scripted.request "increase")
    (boot (Scripted.script "null" [Demo.chat 1 0] Js.null))
  = (Threw (Js.TypeError "maxMessageCapacity"),
     advance (boot (Scripted.script "null" [Demo.chat 1 0] Js.null))
             (Scripted.script "null" [Demo.chat 1 0] Js.null)
             [WorkerFetch "WS1" "WK1"]).
Proof.
  destruct (adjust_attributes_unreadable (H := Scripted.platform) 0%nat Demo.context
              (Scripted.request "increase")
              (boot (Scripted.script "null" [Demo.chat 1 0] Js.null))
              {| workerSid_of := "WK1"; attributes := "null" |}
              (Scripted.script "null" [Demo.chat 1 0] Js.null) eq_refl)
    as (_ & Hnull).
  apply Hnull. reflexivity.
Defined.

#[local] Existing Instance Demo.platform.

Lemma demo_always_busy : always_busy.
Proof.
  intros channel n env. exists (Demo.setCapacity env n), (Demo.setCapacity env n).
  repeat split.
Defined.

Lemma adjust_invalid_argument_witness :
  adjustChatCapacity 0 Demo.context
    {| validWorkerSid := "WK1"; validAdjustment := "double" |} (boot (Demo.chat 1 0))
  = (Returned {| status := 400; message := "Invalid adjustment argument" |},
     Demo.found (Demo.chat 1 0)).
Proof.
  apply (adjust_invalid_argument 0%nat _ _ _ _ _ _ _ (demo_located 1 0));
    discriminate.
Defined.

Lemma increase_requests_bounded_witness :
  exists c n,
    ChannelUpdate (Demo.chat 1 0) 2 = ChannelUpdate c n
    /\ availableCapacityPercentage c <= 0
    /\ configuredCapacity c < 3
    /\ n = Js.succ (configuredCapacity c)
    /\ (- Js.limit <= configuredCapacity c < Js.limit ->
        n = configuredCapacity c + 1 /\ n <= 3).
Proof.
  apply (increase_requests_bounded 0%nat Demo.context "WK1" "increase"
           (boot (Demo.chat 1 0)) 3 (Demo.chat 1 0) (Demo.found (Demo.chat 1 0))
           (demo_located 1 0) (or_introl eq_refl)
           [ChannelUpdate (Demo.chat 1 0) 2] eq_refl).
  left. reflexivity.
Defined.

Lemma increase_loop_exit_witness :
  status {| status := 412; message := "Reached the max capacity." |} = 412
  /\ (0 < availableCapacityPercentage (Demo.chat 3 0)
      \/ 3 <= configuredCapacity (Demo.chat 3 0)).
Proof.
  eapply (increase_loop_exit 4%nat 3 (Demo.chat 1 0) (boot (Demo.chat 1 0))).
  reflexivity.
Defined.

Lemma increase_until_nothing_to_do_witness :
  adjustChatCapacity 2 Demo.context
    {| validWorkerSid := "WK1";
       validAdjustment := "increaseUntilCapacityAvailable" |} (boot (Demo.chat 5 0))
  = (Returned {| status := 200;
                 message := "Adjusted chat capacity until there is capacity available" |},
     Demo.found (Demo.chat 5 0)).
Proof.
  apply (increase_until_nothing_to_do 2%nat _ _ _ _ _ _ (demo_located 5 0)).
  - lia.
  - right. cbn. lia.
Defined.

Lemma increase_until_saturates_witness :
  always_busy
  /\ exists env' new,
       adjustChatCapacity 4 Demo.context
         {| validWorkerSid := "WK1";
            validAdjustment := "increaseUntilCapacityAvailable" |}
         (boot (Demo.chat 1 0))
       = (Returned {| status := 412;
                      message := "Reached the max capacity with no available capacity." |},
          advance (Demo.found (Demo.chat 1 0)) env' new)
       /\ length new = 2%nat
       /\ capacityAfter 1 new = 3.
Proof.
  split; [exact demo_always_busy|].
  apply (increase_until_saturates 4%nat _ _ _ _ _ _ demo_always_busy (demo_located 1 0)).
  - reflexivity.
  - vm_compute. discriminate.
  - cbn. lia.
  - vm_compute. discriminate.
  - cbn. lia.
Defined.

(** On the concrete platform the lookups find the ceiling 3 and the
    channel that is the remote state. *)
Lemma demo_in_range workerSid (w : World Channel) max channel w2 :
  - Js.limit <= configuredCapacity (remote w) ->
  located_at Demo.context workerSid w max channel w2 ->
  bounded max /\ - Js.limit <= configuredCapacity channel.
Proof.
  intros Hlow (worker & env1 & attrs & raw & channels & env2
               & Hw & Hp & Hg & Hi & _ & Hl & Hf & _).
  cbn in Hw. injection Hw as <- <-. cbn in Hp. injection Hp as <-.
  cbn in Hg. injection Hg as <-. cbn in Hi. subst max.
  cbn in Hl. injection Hl as <- _.
  apply find_some in Hf. destruct Hf as [[<-|[]] _].
  split; [vm_compute; discriminate | assumption].
Defined.

Lemma handler_answers_once_witness :
  update_sets_capacity
  /\ exists enough : nat,
       forall fuel, (enough <= fuel)%nat ->
         exists r w',
           handler fuel Demo.context
             {| workerSid := Some "WK1";
                adjustment := Some "increaseUntilCapacityAvailable";
                Token := Some "token" |}
             (boot (Demo.chat 1 0))
           = (Returned tt, w')
           /\ resolved w' = ([] ++ [r])%list.
Proof.
  split; [exact demo_update_sets_capacity|].
  apply (handler_answers_once Demo.context _ (boot (Demo.chat 1 0))
           demo_update_sets_capacity).
  intros verdict env' workerSid max channel w2 Hcheck Hloc.
  cbn in Hcheck. injection Hcheck as _ <-.
  revert Hloc. apply demo_in_range. vm_compute. discriminate.
Defined.

End MoreWitnesses.

Section AccessWitnesses.
Import SaveContactToSaferNet.

Lemma safernet_configuration_missing_witness :
  handler (H := Demo.platform)
    {| ACCOUNT_SID := "AC1"; AUTH_TOKEN := "auth";
       SAVE_PENDING_CONTACTS_STATIC_KEY := "static-key";
       SAFERNET_ENDPOINT := "https://safernet.example/post";
       SAFERNET_TOKEN := EmptyString |}
    (Demo.contact "{}") (boot (Demo.chat 1 0))
  = (Threw (Js.Error (Js.str "SAFERNET_TOKEN env var not provided.")),
     boot (Demo.chat 1 0)).
Proof.
  destruct (safernet_configuration_missing (H := Demo.platform)
              {| ACCOUNT_SID := "AC1"; AUTH_TOKEN := "auth";
                 SAVE_PENDING_CONTACTS_STATIC_KEY := "static-key";
                 SAFERNET_ENDPOINT := "https://safernet.example/post";
                 SAFERNET_TOKEN := EmptyString |}
              (Demo.contact "{}") (boot (Demo.chat 1 0)))
    as (_ & Htoken & _).
  apply Htoken; [discriminate | reflexivity].
Defined.

(** A stale token is refused even beside the right key. *)
Lemma token_decides_witness :
  isValidRequest (H := Demo.platform) Demo.saferNet
    {| payload := "{}"; Token := Some "stale"; ApiKey := Some "static-key" |}
    (boot (Demo.chat 1 0))
  = (Returned false,
     advance (boot (Demo.chat 1 0)) (Demo.chat 1 0)
             [ValidateToken "stale" "AC1" "auth"]).
Proof.
  apply (token_decides (H := Demo.platform) Demo.saferNet
           {| payload := "{}"; Token := Some "stale"; ApiKey := Some "static-key" |}
           (boot (Demo.chat 1 0)) "stale" (inl (Js.Failure "invalid token"))
           (Demo.chat 1 0) eq_refl);
    [discriminate | reflexivity].
Defined.

Lemma api_key_decides_witness :
  exists answer,
    isValidRequest (H := Demo.platform) Demo.saferNet (Demo.contact "{}")
      (boot (Demo.chat 1 0))
    = (Returned answer, boot (Demo.chat 1 0))
    /\ (answer = true <->
        exists key, ApiKey (Demo.contact "{}") = Some key
                    /\ key <> EmptyString
                    /\ key = SAVE_PENDING_CONTACTS_STATIC_KEY Demo.saferNet).
Proof.
  apply (api_key_decides (H := Demo.platform) Demo.saferNet (Demo.contact "{}")
           (boot (Demo.chat 1 0))).
  left. reflexivity.
Defined.

Lemma unauthorised_refused_witness :
  handler (H := Demo.platform) Demo.saferNet
    {| payload := "{}"; Token := None; ApiKey := Some "guess" |}
    (boot (Demo.chat 1 0))
  = (Returned tt,
     {| remote := Demo.chat 1 0; calls := [];
        resolved := [error403 "No AccessToken or ApiKey was found"] |}).
Proof.
  destruct (unauthorised_refused (H := Demo.platform) Demo.saferNet
              {| payload := "{}"; Token := None; ApiKey := Some "guess" |}
              (boot (Demo.chat 1 0)) (boot (Demo.chat 1 0))
              ltac:(discriminate) ltac:(discriminate) ltac:(discriminate) eq_refl)
    as (Hrun & _).
  exact Hrun.
Defined.

End AccessWitnesses.

Section MediaWitnesses.
Import UnsupportedMedia.

Lemma conversation_message_options_witness :
  sendConversationMessage (H := Demo.platform) "CH1" "Bot" (Js.str "hello")
    (Some EmptyString) (boot (Demo.chat 1 0))
  = (Returned tt,
     advance (boot (Demo.chat 1 0)) (Demo.chat 1 0)
       [MessageCreate "CH1"
          {| body := Js.str "hello"; author := "Bot";
             xTwilioWebhookEnabled := "true"; messageAttributes := None |}]).
Proof.
  destruct (conversation_message_options (H := Demo.platform) "CH1" "Bot"
              (Js.str "hello") (Some EmptyString) (boot (Demo.chat 1 0)))
    as (Hdropped & _).
  apply (Hdropped (or_intror eq_refl) (inr tt) (Demo.chat 1 0)). reflexivity.
Defined.

Lemma configuration_failure_not_caught_witness :
  sendErrorMessageForUnsupportedMedia (H := Scripted.platform) Demo.domain
    Demo.emptyMessage (boot Scripted.outage)
  = (Threw Scripted.down,
     advance (boot Scripted.outage) Scripted.outage [FlexConfigurationFetch]).
Proof.
  destruct (configuration_failure_not_caught (H := Scripted.platform) Demo.domain
              Demo.emptyMessage (boot Scripted.outage) eq_refl eq_refl)
    as (Hdown & _).
  apply Hdown. reflexivity.
Defined.

(** No language configured and the download refused: English is asked for
    and the fallback is sent. *)
Lemma helpline_language_default_witness :
  exists text,
    issues (sendErrorMessageForUnsupportedMedia (H := Scripted.platform)
              Demo.domain Demo.emptyMessage)
           (boot (Scripted.script "{}" [] (Js.object [])))
           [FlexConfigurationFetch;
            HttpFetch "https://helpline.example/translations/en-US/messages.json";
            MessageCreate "CH1"
              {| body := text; author := "Bot"; xTwilioWebhookEnabled := "true";
                 messageAttributes := None |}].
Proof.
  destruct (helpline_language_default (H := Scripted.platform) Demo.domain
              Demo.emptyMessage (boot (Scripted.script "{}" [] (Js.object [])))
              {| configAttributes := Js.object [] |}
              (Scripted.script "{}" [] (Js.object [])) Js.undefined
              eq_refl eq_refl eq_refl eq_refl)
    as (Hdefault & _).
  apply Hdefault. left. reflexivity.
Defined.

Lemma error_message_shape_witness :
  let sent :=
    MessageCreate "CH1"
      {| body := Js.str "Tipo de mensagem incompativel."; author := "Bot";
         xTwilioWebhookEnabled := "true"; messageAttributes := None |} in
  let log :=
    [ FlexConfigurationFetch;
      HttpFetch "https://helpline.example/translations/pt-BR/messages.json";
      sent ] in
  issues (sendErrorMessageForUnsupportedMedia (H := Demo.platform) Demo.domain
            Demo.emptyMessage) (boot (Demo.chat 1 0)) log
  /\ exists before,
       log = (before ++ [sent])%list /\ forall c o, ~ In (MessageCreate c o) before.
Proof.
  intros sent log. split; [reflexivity|].
  destruct (error_message_shape (H := Demo.platform) Demo.domain Demo.emptyMessage
              (boot (Demo.chat 1 0)) log "CH1"
              {| body := Js.str "Tipo de mensagem incompativel."; author := "Bot";
                 xTwilioWebhookEnabled := "true"; messageAttributes := None |}
              eq_refl (or_intror (or_intror (or_introl eq_refl))))
    as (_ & _ & _ & _ & Hlast).
  exact Hlast.
Defined.

Lemma task_fetch_failure_propagates_witness :
  TransferHelpers.hasTaskControl (H := Scripted.platform) "WS1" "WT1"
    (Some (Demo.transferred "WT1")) (boot Scripted.outage)
  = (Threw Scripted.down,
     advance (boot Scripted.outage) Scripted.outage [TaskFetch "WS1" "WT1"]).
Proof.
  apply (task_fetch_failure_propagates (H := Scripted.platform) "WS1" "WT1"
           (Demo.transferred "WT1") (Demo.control "WT1") (boot Scripted.outage)
           Scripted.down Scripted.outage eq_refl eq_refl).
Defined.

End MediaWitnesses.
